(** * Link resolver UI: the submission handler of [src/src/App.tsx]

    The component keeps four pieces of React state ([url], [status],
    [error], [videoData]) and one asynchronous handler, [handleDownload].
    The handler is embedded as a finite interaction tree whose nodes are
    the state setters it calls and the two promises it awaits; the tree is
    then run against a host (the browser: [fetch], the body reader, the
    text of a [URIError]). *)

From Stdlib Require Import List NArith ZArith Bool String Ascii Lia.
Import ListNotations.
Local Open Scope N_scope.

(** ** JavaScript strings

    A JavaScript string is a sequence of UTF-16 code units. *)

Definition jsstring : Type := list N.

(** A source literal (all literals of the handler are ASCII). *)
Definition lit (s : string) : jsstring :=
  map N_of_ascii (list_ascii_of_string s).

(** [ToBoolean] of a string: only the empty string is falsy. *)
Definition truthy (s : jsstring) : bool :=
  match s with [] => false | _ :: _ => true end.

(** *** [String.prototype.trim]

    The code units stripped by [trim]: ECMAScript's WhiteSpace and
    LineTerminator productions. *)
Definition isWhiteSpace (c : N) : bool :=
  (c =? 0x09) || (c =? 0x0A) || (c =? 0x0B) || (c =? 0x0C) || (c =? 0x0D)
  || (c =? 0x20) || (c =? 0xA0) || (c =? 0x1680)
  || ((0x2000 <=? c) && (c <=? 0x200A))
  || (c =? 0x2028) || (c =? 0x2029) || (c =? 0x202F) || (c =? 0x205F)
  || (c =? 0x3000) || (c =? 0xFEFF).

Fixpoint trimStart (s : jsstring) : jsstring :=
  match s with
  | c :: rest => if isWhiteSpace c then trimStart rest else s
  | [] => []
  end.

Definition trimEnd (s : jsstring) : jsstring :=
  rev (trimStart (rev s)).

Definition trim (s : jsstring) : jsstring := trimEnd (trimStart s).

(** *** [encodeURIComponent]

    ECMAScript's [Encode] with the unreserved set of [encodeURIComponent]:
    letters, digits and [- _ . ! ~ * ' ( )]. *)
Definition uriUnescaped (c : N) : bool :=
  ((0x41 <=? c) && (c <=? 0x5A)) || ((0x61 <=? c) && (c <=? 0x7A))
  || ((0x30 <=? c) && (c <=? 0x39))
  || (c =? 0x2D) || (c =? 0x5F) || (c =? 0x2E) || (c =? 0x21) || (c =? 0x7E)
  || (c =? 0x2A) || (c =? 0x27) || (c =? 0x28) || (c =? 0x29).

Definition isLeadingSurrogate (c : N) : bool := (0xD800 <=? c) && (c <=? 0xDBFF).
Definition isTrailingSurrogate (c : N) : bool := (0xDC00 <=? c) && (c <=? 0xDFFF).

Definition UTF16SurrogatePairToCodePoint (lead trail : N) : N :=
  (lead - 0xD800) * 0x400 + (trail - 0xDC00) + 0x10000.

(** The octets of the UTF-8 encoding of a code point. *)
Definition utf8 (cp : N) : list N :=
  if cp <? 0x80 then [cp]
  else if cp <? 0x800 then
    [N.lor 0xC0 (N.shiftr cp 6); N.lor 0x80 (N.land cp 0x3F)]
  else if cp <? 0x10000 then
    [N.lor 0xE0 (N.shiftr cp 12);
     N.lor 0x80 (N.land (N.shiftr cp 6) 0x3F);
     N.lor 0x80 (N.land cp 0x3F)]
  else
    [N.lor 0xF0 (N.shiftr cp 18);
     N.lor 0x80 (N.land (N.shiftr cp 12) 0x3F);
     N.lor 0x80 (N.land (N.shiftr cp 6) 0x3F);
     N.lor 0x80 (N.land cp 0x3F)].

Definition hexDigit (d : N) : N :=
  if d <? 10 then 0x30 + d else 0x41 + (d - 10).

(** ["%XX"] with upper-case hexadecimal digits. *)
Definition percent (octet : N) : jsstring :=
  [0x25; hexDigit (N.shiftr octet 4); hexDigit (N.land octet 0xF)].

Definition percentAll (octets : list N) : jsstring :=
  flat_map percent octets.

(** [None] stands for the [URIError] thrown at an unpaired surrogate. *)
Fixpoint encodeURIComponent (s : jsstring) : option jsstring :=
  match s with
  | [] => Some []
  | c :: rest =>
      if uriUnescaped c then option_map (cons c) (encodeURIComponent rest)
      else if isTrailingSurrogate c then None
      else if isLeadingSurrogate c then
        match rest with
        | [] => None
        | c2 :: rest' =>
            if isTrailingSurrogate c2 then
              option_map
                (app (percentAll (utf8 (UTF16SurrogatePairToCodePoint c c2))))
                (encodeURIComponent rest')
            else None
        end
      else option_map (app (percentAll (utf8 c))) (encodeURIComponent rest)
  end.

(** [String.prototype.isWellFormed]: no unpaired surrogate. *)
Fixpoint isWellFormed (s : jsstring) : bool :=
  match s with
  | [] => true
  | c :: rest =>
      if isTrailingSurrogate c then false
      else if isLeadingSurrogate c then
        match rest with
        | [] => false
        | c2 :: rest' => isTrailingSurrogate c2 && isWellFormed rest'
        end
      else isWellFormed rest
  end.

(** ** Data model (lines 7-26 of the source) *)

Inductive DownloadState : Type := idle | loading | success | error.

Definition DownloadState_eqb (a b : DownloadState) : bool :=
  match a, b with
  | idle, idle | loading, loading | success, success | error, error => true
  | _, _ => false
  end.

Record Author : Type := { nickname : jsstring }.

(** The [data] member of [TikTokResponse]. *)
Record VideoData : Type := {
  play : jsstring;
  title : jsstring;
  author : Author;
  cover : jsstring
}.

(** [code] is an integer status.  [msg] is declared [string]; a body that
    lacks the member reads as [undefined], which is [None] here.  [data]
    is optional in the declaration itself. *)
Record TikTokResponse : Type := {
  code : Z;
  msg : option jsstring;
  data : option VideoData
}.

(** The four [useState] cells of [App]. *)
Record AppState : Type := {
  url : jsstring;
  status : DownloadState;
  error_ : option jsstring;
  videoData : option VideoData
}.

Definition initial : AppState :=
  {| url := []; status := idle; error_ := None; videoData := None |}.

(** [const isLoading = status === "loading"] *)
Definition isLoading (st : AppState) : bool :=
  DownloadState_eqb (status st) loading.

(** ** Thrown values and promises *)

(** What a [catch] clause can receive: an [Error] instance with its
    [message], or a value that is not an [Error]. *)
Inductive Thrown : Type :=
| ErrorValue (message : jsstring)
| OtherValue.

Inductive Settled (A : Type) : Type :=
| Fulfilled (a : A)
| Rejected (e : Thrown).
Arguments Fulfilled {A} a.
Arguments Rejected {A} e.

(** A [Response]: its [ok] flag and what [response.json()] settles to. *)
Record Response : Type := {
  ok : bool;
  json : Settled TikTokResponse
}.

(** ** Effects and handler programs *)

Inductive Effect : Type :=
| PreventDefault
| SetUrl (v : jsstring)
| SetStatus (s : DownloadState)
| SetError (e : option jsstring)
| SetVideoData (d : option VideoData)
| ConsoleError (err : Thrown).

(** A handler run: a finite tree of effects, suspended at each [await]. *)
Inductive Proc (A : Type) : Type :=
| Ret (a : A)
| Throw (e : Thrown)
| Do (eff : Effect) (k : Proc A)
| AwaitFetch (request : jsstring) (k : Settled Response -> Proc A)
| AwaitJson (response : Response) (k : Settled TikTokResponse -> Proc A).
Arguments Ret {A} a.
Arguments Throw {A} e.
Arguments Do {A} eff k.
Arguments AwaitFetch {A} request k.
Arguments AwaitJson {A} response k.

Definition settle {A : Type} (o : Settled A) : Proc A :=
  match o with
  | Fulfilled a => Ret a
  | Rejected e => Throw e
  end.

Fixpoint bind {A B : Type} (m : Proc A) (f : A -> Proc B) : Proc B :=
  match m with
  | Ret a => f a
  | Throw e => Throw e
  | Do eff k => Do eff (bind k f)
  | AwaitFetch request k => AwaitFetch request (fun o => bind (k o) f)
  | AwaitJson response k => AwaitJson response (fun o => bind (k o) f)
  end.

(** [try { m } catch (err) { h err }] *)
Fixpoint tryCatch {A : Type} (m : Proc A) (h : Thrown -> Proc A) : Proc A :=
  match m with
  | Ret a => Ret a
  | Throw e => h e
  | Do eff k => Do eff (tryCatch k h)
  | AwaitFetch request k => AwaitFetch request (fun o => tryCatch (k o) h)
  | AwaitJson response k => AwaitJson response (fun o => tryCatch (k o) h)
  end.

Declare Scope proc_scope.
Delimit Scope proc_scope with proc.
Notation "x <- m ;; k" := (bind m (fun x => k))
  (at level 61, m at next level, right associativity) : proc_scope.
Notation "m ;; k" := (bind m (fun _ => k))
  (at level 61, right associativity) : proc_scope.
Local Open Scope proc_scope.

Definition perform (eff : Effect) : Proc unit := Do eff (Ret tt).
Definition setStatus (s : DownloadState) : Proc unit := perform (SetStatus s).
Definition setError (e : option jsstring) : Proc unit := perform (SetError e).
Definition setVideoData (d : option VideoData) : Proc unit :=
  perform (SetVideoData d).

(** [await fetch(request)] and [await response.json()] *)
Definition fetch (request : jsstring) : Proc Response :=
  AwaitFetch request settle.
Definition readJson (response : Response) : Proc TikTokResponse :=
  AwaitJson response settle.

(** [if (c) throw new Error(message)] *)
Definition throwIf (c : bool) (message : jsstring) : Proc unit :=
  if c then Throw (ErrorValue message) else Ret tt.

Definition API_ENDPOINT : jsstring := lit "https://www.tikwm.com/api/".

(** [payload.data?.play], as far as its truthiness goes. *)
Definition hasPlay (payload : TikTokResponse) : bool :=
  match data payload with
  | Some d => truthy (play d)
  | None => false
  end.

(** [payload.msg || fallback] *)
Definition orElse (m : option jsstring) (fallback : jsstring) : jsstring :=
  match m with
  | Some s => if truthy s then s else fallback
  | None => fallback
  end.

(** [err instanceof Error ? err.message : "Unexpected error. ..."] *)
Definition displayed (err : Thrown) : jsstring :=
  match err with
  | ErrorValue message => message
  | OtherValue => lit "Unexpected error. Please try again later."
  end.

Section Handler.

(** The text the engine gives the [URIError] of [encodeURIComponent];
    ECMAScript leaves it to the implementation. *)
Variable uriErrorMessage : jsstring.

Definition encodeOrThrow (s : jsstring) : Proc jsstring :=
  match encodeURIComponent s with
  | Some e => Ret e
  | None => Throw (ErrorValue uriErrorMessage)
  end.

(** [handleDownload], lines 28-60; [url] is the value the closure
    captured from the render in which the form was submitted. *)
Definition handleDownload (url : jsstring) : Proc unit :=
  perform PreventDefault ;;
  if negb (truthy (trim url)) then
    setError (Some (lit "Please paste a TikTok link.")) ;;
    setStatus error
  else
    setStatus loading ;;
    setError None ;;
    setVideoData None ;;
    tryCatch
      (query <- encodeOrThrow (trim url) ;;
       response <- fetch (API_ENDPOINT ++ lit "?url=" ++ query) ;;
       throwIf (negb (ok response))
         (lit "Failed to contact the download service. Please try again.") ;;
       payload <- readJson response ;;
       throwIf (negb (code payload =? 0)%Z || negb (hasPlay payload))
         (orElse (msg payload)
            (lit "Unable to fetch the video. Make sure the link is public.")) ;;
       setVideoData (data payload) ;;
       setStatus success)
      (fun err =>
         perform (ConsoleError err) ;;
         setError (Some (displayed err)) ;;
         setStatus error).

End Handler.

(** ** Running a handler *)

(** One setter call.  [preventDefault] and [console.error] leave the four
    cells alone. *)
Definition update (eff : Effect) (st : AppState) : AppState :=
  match eff with
  | PreventDefault | ConsoleError _ => st
  | SetUrl v =>
      {| url := v; status := status st; error_ := error_ st;
         videoData := videoData st |}
  | SetStatus s =>
      {| url := url st; status := s; error_ := error_ st;
         videoData := videoData st |}
  | SetError e =>
      {| url := url st; status := status st; error_ := e;
         videoData := videoData st |}
  | SetVideoData d =>
      {| url := url st; status := status st; error_ := error_ st;
         videoData := d |}
  end.

(** Where a run stands when control goes back to the event loop. *)
Inductive Paused (A : Type) : Type :=
| Finished (r : A)
| Uncaught (e : Thrown)
| Suspended (p : Proc A).
Arguments Finished {A} r.
Arguments Uncaught {A} e.
Arguments Suspended {A} p.

(** The synchronous stretch of a run: every setter up to the next [await]
    (or the end) lands in the same render. *)
Fixpoint segment {A : Type} (p : Proc A) (st : AppState) : AppState * Paused A :=
  match p with
  | Ret a => (st, Finished a)
  | Throw e => (st, Uncaught e)
  | Do eff k => segment k (update eff st)
  | AwaitFetch _ _ | AwaitJson _ _ => (st, Suspended p)
  end.

(** What an observer of a whole run records. *)
Inductive Obs : Type :=
| Performed (eff : Effect)
| HttpGet (request : jsstring)
| BodyRead.

(** A run to completion against a network that answers each request at
    once: the final cells, the record of what happened and the way the
    handler's promise settles. *)
Fixpoint exec {A : Type} (net : jsstring -> Settled Response) (p : Proc A)
    (st : AppState) : AppState * list Obs * Settled A :=
  match p with
  | Ret a => (st, [], Fulfilled a)
  | Throw e => (st, [], Rejected e)
  | Do eff k =>
      let '(st', log, r) := exec net k (update eff st) in
      (st', Performed eff :: log, r)
  | AwaitFetch request k =>
      let '(st', log, r) := exec net (k (net request)) st in
      (st', HttpGet request :: log, r)
  | AwaitJson response k =>
      let '(st', log, r) := exec net (k (json response)) st in
      (st', BodyRead :: log, r)
  end.

Definition requests (log : list Obs) : list jsstring :=
  flat_map (fun o => match o with HttpGet r => [r] | _ => [] end) log.

Definition final {A : Type} (x : AppState * list Obs * Settled A) : AppState :=
  fst (fst x).
Definition trace {A : Type} (x : AppState * list Obs * Settled A) : list Obs :=
  snd (fst x).
Definition outcome {A : Type} (x : AppState * list Obs * Settled A) : Settled A :=
  snd x.

(** ** The page as a transition system *)

(** The cells together with the handler runs parked at an [await]. *)
Record Ui : Type := {
  cells : AppState;
  tasks : list (Proc unit)
}.

Definition start : Ui := {| cells := initial; tasks := [] |}.

Inductive Event : Type :=
| Change (v : jsstring)
| Submit
| FetchSettled (i : nat) (o : Settled Response)
| JsonSettled (i : nat).

Definition parked {A : Type} (r : Paused A) : list (Proc A) :=
  match r with
  | Suspended p => [p]
  | Finished _ | Uncaught _ => []
  end.

Definition without {A : Type} (i : nat) (l : list A) : list A :=
  firstn i l ++ skipn (S i) l.

Section Page.

Variable uriErrorMessage : jsstring.

(** What each event does, whether or not the rendered controls would let
    it happen; [None] when the event names no parked run. *)
Definition handle (u : Ui) (ev : Event) : option Ui :=
  match ev with
  | Change v =>
      Some {| cells := update (SetUrl v) (cells u); tasks := tasks u |}
  | Submit =>
      let '(st, r) :=
        segment (handleDownload uriErrorMessage (url (cells u))) (cells u) in
      Some {| cells := st; tasks := tasks u ++ parked r |}
  | FetchSettled i o =>
      match nth_error (tasks u) i with
      | Some (AwaitFetch _ k) =>
          let '(st, r) := segment (k o) (cells u) in
          Some {| cells := st; tasks := without i (tasks u) ++ parked r |}
      | _ => None
      end
  | JsonSettled i =>
      match nth_error (tasks u) i with
      | Some (AwaitJson response k) =>
          let '(st, r) := segment (k (json response)) (cells u) in
          Some {| cells := st; tasks := without i (tasks u) ++ parked r |}
      | _ => None
      end
  end.

(** The input and the submit button carry [disabled={isLoading}]. *)
Definition enabled (st : AppState) (ev : Event) : bool :=
  match ev with
  | Change _ | Submit => negb (isLoading st)
  | FetchSettled _ _ | JsonSettled _ => true
  end.

Definition ui_handle (u : Ui) (ev : Event) : option Ui :=
  if enabled (cells u) ev then handle u ev else None.

Fixpoint run (evs : list Event) (u : Ui) : option Ui :=
  match evs with
  | [] => Some u
  | ev :: rest =>
      match handle u ev with
      | Some u' => run rest u'
      | None => None
      end
  end.

Fixpoint ui_run (evs : list Event) (u : Ui) : option Ui :=
  match evs with
  | [] => Some u
  | ev :: rest =>
      match ui_handle u ev with
      | Some u' => ui_run rest u'
      | None => None
      end
  end.

End Page.

(** ** Predicates on runs and pages *)

(** The cells as [handleDownload] leaves them when it starts a request. *)
Definition cleared (s : AppState) : AppState :=
  {| url := url s; status := loading; error_ := None; videoData := None |}.

(** [status === s], the test the render uses to pick a panel. *)
Definition active (s : DownloadState) (st : AppState) : bool :=
  DownloadState_eqb (status st) s.

(** An [Error] whose message is the empty string. *)
Definition silent (e : Thrown) : bool :=
  match e with
  | ErrorValue [] => true
  | _ => false
  end.

Definition namedJson (o : Settled TikTokResponse) : bool :=
  match o with
  | Rejected e => negb (silent e)
  | Fulfilled _ => true
  end.

Definition namedFetch (o : Settled Response) : bool :=
  match o with
  | Rejected e => negb (silent e)
  | Fulfilled r => namedJson (json r)
  end.

(** The event brings no [Error] with an empty message into the page. *)
Definition named (ev : Event) : bool :=
  match ev with
  | FetchSettled _ o => namedFetch o
  | _ => true
  end.

(** The error state carries a message (a non-empty one when [strict]) and
    the success state carries a record with a non-empty [play]. *)
Definition consistent (strict : bool) (st : AppState) : Prop :=
  (status st = error ->
     exists m, error_ st = Some m /\ (strict = true -> m <> []))
  /\ (status st = success ->
     exists d, videoData st = Some d /\ play d <> []).

(** Every stretch of the run [p], started in [st] and resumed in whatever
    consistent state the page is in by then, ends in a consistent state. *)
Fixpoint keeps (strict : bool) (p : Proc unit) (st : AppState) : Prop :=
  match p with
  | Ret _ | Throw _ => consistent strict st
  | Do eff k => keeps strict k (update eff st)
  | AwaitFetch _ k =>
      consistent strict st
      /\ forall o st', (strict = true -> namedFetch o = true) ->
           consistent strict st' -> keeps strict (k o) st'
  | AwaitJson r k =>
      consistent strict st
      /\ (strict = true -> namedJson (json r) = true)
      /\ forall st', consistent strict st' -> keeps strict (k (json r)) st'
  end.

Definition resumable (strict : bool) (p : Proc unit) : Prop :=
  forall st, consistent strict st -> keeps strict p st.

Definition sound (strict : bool) (u : Ui) : Prop :=
  consistent strict (cells u) /\ Forall (resumable strict) (tasks u).

(** The phases of one run of the handler. *)
Inductive Phase : Type := submitting | fetched | parsed.

(** The run [p], started in [st] in the given phase, parks only while the
    status is loading, first on the request and then on the body, and ends
    in the error state or, once the body is read, in the success state. *)
Fixpoint follows (ph : Phase) (p : Proc unit) (st : AppState) : Prop :=
  match p with
  | Ret _ => status st = error \/ (ph = parsed /\ status st = success)
  | Throw _ => False
  | Do eff k => follows ph k (update eff st)
  | AwaitFetch _ k =>
      ph = submitting /\ status st = loading
      /\ forall o, follows fetched (k o) st
  | AwaitJson r k =>
      ph = fetched /\ status st = loading
      /\ follows parsed (k (json r)) st
  end.

(** At most one run is parked, and exactly while the status is loading. *)
Definition orderly (u : Ui) : Prop :=
  match tasks u with
  | [] => status (cells u) <> loading
  | [AwaitFetch req k] => follows submitting (AwaitFetch req k) (cells u)
  | [AwaitJson r k] => follows fetched (AwaitJson r k) (cells u)
  | _ => False
  end.

(** How each kind of event may move the status. *)
Definition caused (u : Ui) (ev : Event) (u' : Ui) : Prop :=
  let s := status (cells u) in
  let s' := status (cells u') in
  let input := trim (url (cells u)) in
  match ev with
  | Change _ => s' = s
  | Submit =>
      s <> loading
      /\ ((input <> [] /\ encodeURIComponent input <> None /\ s' = loading)
          \/ ((input = [] \/ encodeURIComponent input = None) /\ s' = error))
  | FetchSettled _ _ => s = loading /\ (s' = loading \/ s' = error)
  | JsonSettled _ => s = loading /\ (s' = success \/ s' = error)
  end.

(** ** Scenarios *)

(** The text V8 gives a [URIError]. *)
Definition engine : jsstring := lit "URI malformed".

(** The page after the user typed [s] into the empty form. *)
Definition typed (s : jsstring) : AppState := update (SetUrl s) initial.

Definition answering (r : Response) : jsstring -> Settled Response :=
  fun _ => Fulfilled r.

Definition failing (e : Thrown) : jsstring -> Settled Response :=
  fun _ => Rejected e.

Definition link : jsstring := lit "https://www.tiktok.com/@user/video/1".

Definition linkRequest : jsstring :=
  lit "https://www.tikwm.com/api/?url=https%3A%2F%2Fwww.tiktok.com%2F%40user%2Fvideo%2F1".

Definition video : VideoData :=
  {| play := lit "https://cdn/x.mp4";
     title := lit "T";
     author := {| nickname := lit "user" |};
     cover := lit "https://cdn/c.jpg" |}.

Definition found : TikTokResponse :=
  {| code := 0; msg := None; data := Some video |}.

Definition notFound : TikTokResponse :=
  {| code := 1; msg := Some (lit "Video not found"); data := None |}.

Definition replying (payload : TikTokResponse) : Response :=
  {| ok := true; json := Fulfilled payload |}.

Definition unavailable : Response :=
  {| ok := false; json := Fulfilled found |}.

(** An OK response whose body does not parse. *)
Definition garbled : Response :=
  {| ok := true;
     json := Rejected (ErrorValue (lit "Unexpected end of JSON input")) |}.

(** A body with [code] 0 and no [data]. *)
Definition hollow : TikTokResponse :=
  {| code := 0; msg := None; data := None |}.

(** The rendered page after the link was typed and the form submitted. *)
Definition submitted : Ui :=
  match ui_run engine [Change link; Submit] start with
  | Some u => u
  | None => start
  end.

(** ** The render (lines 62-203) *)

(** What the submit button shows. *)
Inductive Label : Type := Processing | Download.

(** The three conditional children of [AnimatePresence], lines 129-187. *)
Inductive Panel : Type :=
| ErrorAlert (text : jsstring)
| ResultCard (src alt heading handle href : jsstring)
| LoadingNote.

Record View : Type := {
  inputValue : jsstring;
  inputDisabled : bool;
  buttonDisabled : bool;
  buttonLabel : Label;
  panels : list Panel
}.

(** [status === "error" && error && <div role="alert">...] *)
Definition errorPanel (st : AppState) : list Panel :=
  if active error st then
    match error_ st with
    | Some e => if truthy e then [ErrorAlert e] else []
    | None => []
    end
  else [].

(** [status === "success" && videoData && <div>...] *)
Definition successPanel (st : AppState) : list Panel :=
  if active success st then
    match videoData st with
    | Some d =>
        [ResultCard (cover d) (title d) (title d)
           (lit "@" ++ nickname (author d)) (play d)]
    | None => []
    end
  else [].

(** [status === "loading" && <div>...] *)
Definition loadingPanel (st : AppState) : list Panel :=
  if active loading st then [LoadingNote] else [].

Definition render (st : AppState) : View :=
  {| inputValue := url st;
     inputDisabled := isLoading st;
     buttonDisabled := isLoading st;
     buttonLabel := if isLoading st then Processing else Download;
     panels := errorPanel st ++ successPanel st ++ loadingPanel st |}.

(** The code units [encodeURIComponent] can put out: the unreserved ones
    and the percent sign. *)
Definition querySafe (c : N) : bool := uriUnescaped c || (c =? 0x25).

(** A code unit is a 16-bit number. *)
Definition isCodeUnit (c : N) : Prop := c < 0x10000.

(** * Properties *)

(** ** Trimming *)

Lemma trimStart_blank (s : jsstring) :
  trimStart s = [] <-> forallb isWhiteSpace s = true.
Proof.
  induction s as [|c s IH]; simpl.
  - tauto.
  - destruct (isWhiteSpace c); simpl.
    + exact IH.
    + split; discriminate.
Qed.

Lemma trimStart_head (s : jsstring) (c : N) (rest : jsstring) :
  trimStart s = c :: rest -> isWhiteSpace c = false.
Proof.
  induction s as [|a s IH]; simpl; [discriminate|].
  destruct (isWhiteSpace a) eqn:Ea; [exact IH|].
  intros H; injection H as -> _; exact Ea.
Qed.

(** [trim] leaves nothing exactly when every code unit is white space. *)
Lemma trim_blank (s : jsstring) :
  trim s = [] <-> forallb isWhiteSpace s = true.
Proof.
  unfold trim, trimEnd. split.
  - intros H.
    assert (H1 : trimStart (rev (trimStart s)) = []).
    { destruct (trimStart (rev (trimStart s))) as [|a l]; [reflexivity|].
      simpl in H. now destruct (rev l). }
    apply trimStart_blank in H1.
    apply trimStart_blank.
    destruct (trimStart s) as [|c rest] eqn:E; [reflexivity|].
    apply trimStart_head in E.
    rewrite forallb_forall in H1.
    specialize (H1 c). rewrite <- in_rev in H1.
    rewrite H1 in E; [discriminate | now left].
  - intros H. apply trimStart_blank in H. now rewrite H.
Qed.

Lemma truthy_trim (s : jsstring) :
  truthy (trim s) = negb (forallb isWhiteSpace s).
Proof.
  destruct (forallb isWhiteSpace s) eqn:E.
  - apply trim_blank in E. now rewrite E.
  - destruct (trim s) eqn:T; [|reflexivity].
    apply trim_blank in T. congruence.
Qed.

Lemma truthy_nonempty (s : jsstring) : truthy s = true <-> s <> [].
Proof. destruct s; simpl; split; congruence. Qed.

(** ** Percent-encoding *)

Example trim_both_ends : trim (lit "  a b  ") = lit "a b".
Proof. reflexivity. Qed.

Example trim_no_break_space : trim [0xA0; 0x61; 0x2028] = lit "a".
Proof. reflexivity. Qed.

Example encode_link :
  encodeURIComponent link =
    Some (lit "https%3A%2F%2Fwww.tiktok.com%2F%40user%2Fvideo%2F1").
Proof. reflexivity. Qed.

(** U+00E9, U+20AC and U+1F600 (a surrogate pair) go through UTF-8. *)
Example encode_utf8 :
  encodeURIComponent [0xE9; 0x20AC; 0xD83D; 0xDE00] =
    Some (lit "%C3%A9%E2%82%AC%F0%9F%98%80").
Proof. reflexivity. Qed.

Example encode_lone_surrogate :
  encodeURIComponent [0x61; 0xD83D] = None
  /\ encodeURIComponent [0xDE00; 0x61] = None
  /\ encodeURIComponent [0xD83D; 0x61] = None.
Proof. repeat split. Qed.

Lemma unescaped_not_surrogate (c : N) :
  uriUnescaped c = true ->
  isLeadingSurrogate c = false /\ isTrailingSurrogate c = false.
Proof.
  unfold uriUnescaped, isLeadingSurrogate, isTrailingSurrogate.
  rewrite !orb_true_iff, !andb_true_iff, !N.leb_le, !N.eqb_eq.
  intros H. split; apply andb_false_iff; rewrite !N.leb_gt; lia.
Qed.

(** [encodeURIComponent] throws exactly on the strings that are not
    well formed. *)
Lemma encodeURIComponent_wellFormed (s : jsstring) :
  isWellFormed s = true <-> encodeURIComponent s <> None.
Proof.
  assert (H : forall n s, (List.length s <= n)%nat ->
            isWellFormed s =
              match encodeURIComponent s with Some _ => true | None => false end).
  { clear s. induction n as [|n IH]; intros [|c s] Hlen; simpl in *;
      try reflexivity; try lia.
    destruct (uriUnescaped c) eqn:Eu.
    - destruct (unescaped_not_surrogate c Eu) as [-> ->].
      rewrite (IH s) by lia. now destruct (encodeURIComponent s).
    - destruct (isTrailingSurrogate c); [reflexivity|].
      destruct (isLeadingSurrogate c).
      + destruct s as [|c2 s']; [reflexivity|].
        destruct (isTrailingSurrogate c2); [|reflexivity]. simpl in *.
        rewrite (IH s') by lia. now destruct (encodeURIComponent s').
      + rewrite (IH s) by lia. now destruct (encodeURIComponent s). }
  rewrite (H (List.length s) s (le_n _)).
  destruct (encodeURIComponent s); split; congruence.
Qed.

(** ** One submission, run to completion *)

Arguments trim : simpl never.
Arguments encodeURIComponent : simpl never.
Arguments lit : simpl never.
Arguments API_ENDPOINT : simpl never.
Arguments displayed : simpl never.
Arguments orElse : simpl never.

(** Splits a goal about a run of [handleDownload] along the branches of
    the handler, keeping the equation of each test. *)
Ltac branches net u :=
  unfold final, trace, outcome, handleDownload, encodeOrThrow;
  cbn;
  destruct (truthy (trim u)) eqn:Etrim; cbn;
  [ destruct (encodeURIComponent (trim u)) as [query|] eqn:Eenc; cbn;
    [ destruct (net (API_ENDPOINT ++ lit "?url=" ++ query))
        as [[[|] [payload|thrown]]|thrown] eqn:Enet; cbn;
      [ destruct (code payload =? 0)%Z eqn:Ecode; cbn;
        [ destruct (hasPlay payload) eqn:Eplay; cbn | ]
      | | | | ]
    | ]
  | ].

Lemma HttpGet_inj (a b : jsstring) : HttpGet a = HttpGet b -> a = b.
Proof. congruence. Qed.

(** Names the request behind [Hin : In (HttpGet req) log] for a literal
    [log], or closes the goal when [log] holds no request. *)
Ltac the_request Hin :=
  cbn [In] in Hin;
  repeat (destruct Hin as [Hin|Hin];
          [ first [ discriminate Hin
                  | apply HttpGet_inj in Hin; destruct Hin ] | ]);
  try contradiction.

Section Submission.

Variable uriErrorMessage : jsstring.
Variable net : jsstring -> Settled Response.
Variable st : AppState.

Let x := exec net (handleDownload uriErrorMessage (url st)) st.

(** C2, as amended: a blank input (empty, or white space only) ends in the
    error state with the message "Please paste a TikTok link." and no
    request is issued. *)
Theorem blank_input_rejected :
  forallb isWhiteSpace (url st) = true ->
  status (final x) = error
  /\ error_ (final x) = Some (lit "Please paste a TikTok link.")
  /\ requests (trace x) = [].
Proof.
  intros Hblank. subst x.
  assert (Ht := truthy_trim (url st)). rewrite Hblank in Ht.
  branches net (url st); try discriminate.
  repeat split.
Qed.

(** C10: on a blank input the stored media record and the text of the
    input field stay as they were; the only cells written are the error
    message and the status. *)
Theorem blank_input_frame :
  forallb isWhiteSpace (url st) = true ->
  videoData (final x) = videoData st
  /\ url (final x) = url st
  /\ trace x =
       [Performed PreventDefault;
        Performed (SetError (Some (lit "Please paste a TikTok link.")));
        Performed (SetStatus error)].
Proof.
  intros Hblank. subst x.
  assert (Ht := truthy_trim (url st)). rewrite Hblank in Ht.
  branches net (url st); try discriminate.
  repeat split.
Qed.

(** C1: when the response fetched by a submission (one that came back with
    an OK status, so that its body is read) has a JSON body with [code] 0
    and a non-empty [data.play], the run ends in the success state and the
    stored record carries the body's [play], [title], [author.nickname] and
    [cover] unchanged. *)
Theorem success_record (req : jsstring) (r : Response) (p : TikTokResponse)
    (d : VideoData) :
  In (HttpGet req) (trace x) ->
  net req = Fulfilled r ->
  ok r = true ->
  json r = Fulfilled p ->
  code p = 0%Z ->
  data p = Some d ->
  play d <> [] ->
  status (final x) = success
  /\ exists v, videoData (final x) = Some v
       /\ play v = play d
       /\ title v = title d
       /\ nickname (author v) = nickname (author d)
       /\ cover v = cover d.
Proof.
  subst x. branches net (url st);
    intros Hin Hnet Hok Hjson Hcode Hdata Hplay; the_request Hin;
    rewrite Enet in Hnet; try discriminate Hnet;
    injection Hnet as <-; cbn in Hok, Hjson; try discriminate;
    injection Hjson as <-.
  - split; [reflexivity|]. exists d. now rewrite Hdata.
  - unfold hasPlay in Eplay. rewrite Hdata in Eplay.
    apply truthy_nonempty in Hplay. congruence.
  - rewrite Hcode in Ecode. discriminate.
Qed.

(** C3, as amended: a non-OK response ends in the error state with the
    handler's connectivity message; a rejected request ends in the error
    state with the message of the value it rejected with (the fixed
    "Unexpected error" text when that value is not an [Error]). *)
Theorem transport_failure (req : jsstring) :
  In (HttpGet req) (trace x) ->
  (forall r, net req = Fulfilled r -> ok r = false ->
     status (final x) = error
     /\ error_ (final x) =
          Some (lit "Failed to contact the download service. Please try again."))
  /\ (forall e, net req = Rejected e ->
     status (final x) = error
     /\ error_ (final x) = Some (displayed e)).
Proof.
  subst x. branches net (url st); intros Hin; the_request Hin;
    (split; [intros r Hnet Hok | intros e Hnet]);
    rewrite Enet in Hnet; try discriminate Hnet;
    injection Hnet as <-; try discriminate Hok;
    split; reflexivity.
Qed.


(** C5, as amended: for an input that is not blank, the run issues exactly
    one request, to the endpoint followed by [?url=] and the percent-encoding
    of the trimmed input; when the trimmed input has an unpaired surrogate,
    so that [encodeURIComponent] throws, no request is issued. *)
Theorem one_request :
  trim (url st) <> [] ->
  requests (trace x) =
    match encodeURIComponent (trim (url st)) with
    | Some query => [API_ENDPOINT ++ lit "?url=" ++ query]
    | None => []
    end.
Proof.
  intros Hne. apply truthy_nonempty in Hne. subst x.
  branches net (url st); try reflexivity; congruence.
Qed.

(** C8: for an input that is not blank the handler first sets the status
    to loading and clears the error message and the media record; the page
    is in exactly that state when the request goes out. *)
Theorem loading_before_request :
  trim (url st) <> [] ->
  (exists rest,
     trace x =
       Performed PreventDefault :: Performed (SetStatus loading)
       :: Performed (SetError None) :: Performed (SetVideoData None) :: rest
     /\ requests (trace x) = requests rest)
  /\ (forall query, encodeURIComponent (trim (url st)) = Some query ->
      exists k,
        segment (handleDownload uriErrorMessage (url st)) st =
          (cleared st, Suspended (AwaitFetch (API_ENDPOINT ++ lit "?url=" ++ query) k))).
Proof.
  intros Hne. apply truthy_nonempty in Hne. split.
  - subst x. branches net (url st); try congruence;
      eexists; split; reflexivity.
  - intros query Henc. unfold handleDownload, encodeOrThrow. cbn.
    rewrite Hne, Henc. cbn. eexists. reflexivity.
Qed.

End Submission.

(** ** What holds in every state of the page *)

Lemma lit_nonempty (a : ascii) (s : string) : lit (String a s) <> [].
Proof. discriminate. Qed.

Lemma orElse_nonempty (m : option jsstring) (fallback : jsstring) :
  fallback <> [] -> orElse m fallback <> [].
Proof.
  unfold orElse. destruct m as [[|c s]|]; simpl; auto. discriminate.
Qed.

Lemma displayed_nonempty (e : Thrown) : silent e = false -> displayed e <> [].
Proof.
  unfold displayed. destruct e as [[|c s]|]; simpl; discriminate.
Qed.

Lemma consistent_loading (strict : bool) (st : AppState) :
  status st = loading -> consistent strict st.
Proof. intros H. split; rewrite H; discriminate. Qed.

Lemma consistent_error (strict : bool) (st : AppState) (m : jsstring) :
  status st = error -> error_ st = Some m -> (strict = true -> m <> []) ->
  consistent strict st.
Proof.
  intros Hs He Hm. split; rewrite Hs; [|discriminate].
  intros _. exists m. auto.
Qed.

Lemma consistent_success (strict : bool) (st : AppState) (d : VideoData) :
  status st = success -> videoData st = Some d -> play d <> [] ->
  consistent strict st.
Proof.
  intros Hs Hd Hp. split; rewrite Hs; [discriminate|].
  intros _. exists d. auto.
Qed.

Lemma keeps_segment (strict : bool) (p : Proc unit) :
  forall st, keeps strict p st ->
  consistent strict (fst (segment p st))
  /\ Forall (resumable strict) (parked (snd (segment p st))).
Proof.
  induction p as [a|e|eff k IH|req k IH|r k IH]; intros st H; simpl in *.
  - split; [assumption|constructor].
  - split; [assumption|constructor].
  - apply IH, H.
  - destruct H as [H1 H2]. split; [assumption|].
    constructor; [|constructor]. intros st' Hst'. simpl. auto.
  - destruct H as [H1 [H2 H3]]. split; [assumption|].
    constructor; [|constructor]. intros st' Hst'. simpl. auto.
Qed.

Section Invariant.

Variable uriErrorMessage : jsstring.
Variable strict : bool.
Hypothesis engine_named : strict = true -> uriErrorMessage <> [].

Lemma keeps_handleDownload (u : jsstring) (st : AppState) :
  keeps strict (handleDownload uriErrorMessage u) st.
Proof.
  unfold handleDownload, encodeOrThrow. cbn.
  destruct (truthy (trim u)); cbn.
  - destruct (encodeURIComponent (trim u)) as [query|]; cbn.
    + split; [now apply consistent_loading|].
      intros [[[|] j]|e] st' Ho Hst'; cbn.
      * split; [assumption|]. split; [exact Ho|].
        intros st'' Hst''. cbn in Ho.
        destruct j as [payload|e]; cbn.
        -- destruct (code payload =? 0)%Z; cbn.
           ++ unfold hasPlay. destruct (data payload) as [d|] eqn:Ed; cbn.
              ** destruct (truthy (play d)) eqn:Ep; cbn.
                 --- eapply consistent_success; try reflexivity.
                     now apply truthy_nonempty.
                 --- eapply consistent_error; try reflexivity.
                     intros _. apply orElse_nonempty, lit_nonempty.
              ** eapply consistent_error; try reflexivity.
                 intros _. apply orElse_nonempty, lit_nonempty.
           ++ eapply consistent_error; try reflexivity.
              intros _. apply orElse_nonempty, lit_nonempty.
        -- eapply consistent_error; try reflexivity.
           intros Hs. apply displayed_nonempty.
           apply Ho in Hs. cbn in Hs. now destruct (silent e).
      * eapply consistent_error; try reflexivity.
        intros _. apply lit_nonempty.
      * eapply consistent_error; try reflexivity.
        intros Hs. apply displayed_nonempty.
        apply Ho in Hs. cbn in Hs. now destruct (silent e).
    + eapply consistent_error; try reflexivity. exact engine_named.
  - eapply consistent_error; try reflexivity.
    intros _. apply lit_nonempty.
Qed.

Lemma Forall_without {A : Type} (P : A -> Prop) (i : nat) (l : list A) :
  Forall P l -> Forall P (without i l).
Proof.
  rewrite !Forall_forall. intros H a Ha. apply H.
  unfold without in Ha. apply in_app_or in Ha. destruct Ha as [Ha|Ha].
  - rewrite <- (firstn_skipn i l). apply in_or_app. now left.
  - rewrite <- (firstn_skipn (S i) l). apply in_or_app. now right.
Qed.

Lemma sound_handle (u u' : Ui) (ev : Event) :
  (strict = true -> named ev = true) ->
  sound strict u -> handle uriErrorMessage u ev = Some u' -> sound strict u'.
Proof.
  intros Hev [Hc Ht] Hstep. destruct ev as [v| |i o|i]; simpl in Hstep.
  - injection Hstep as <-. split; [|exact Ht].
    destruct Hc as [H1 H2]. split; simpl; assumption.
  - pose proof (keeps_segment strict _ _
                  (keeps_handleDownload (url (cells u)) (cells u))) as [K1 K2].
    destruct (segment _ (cells u)) as [st r]. injection Hstep as <-.
    split; [exact K1|]. apply Forall_app. now split.
  - destruct (nth_error (tasks u) i) as [[a|e|eff k|req k|r k]|] eqn:En;
      try discriminate.
    pose proof (proj1 (Forall_forall _ _) Ht _ (nth_error_In _ _ En) _ Hc)
      as [_ K].
    pose proof (keeps_segment strict _ _ (K o (cells u) Hev Hc)) as [K1 K2].
    destruct (segment (k o) (cells u)) as [st r]. injection Hstep as <-.
    split; [exact K1|]. apply Forall_app. split; [|exact K2].
    now apply Forall_without.
  - destruct (nth_error (tasks u) i) as [[a|e|eff k|req k|r k]|] eqn:En;
      try discriminate.
    pose proof (proj1 (Forall_forall _ _) Ht _ (nth_error_In _ _ En) _ Hc)
      as [_ [_ K]].
    pose proof (keeps_segment strict _ _ (K (cells u) Hc)) as [K1 K2].
    destruct (segment (k (json r)) (cells u)) as [st r']. injection Hstep as <-.
    split; [exact K1|]. apply Forall_app. split; [|exact K2].
    now apply Forall_without.
Qed.

Lemma sound_run (evs : list Event) :
  forall u u', (strict = true -> forallb named evs = true) ->
  sound strict u -> run uriErrorMessage evs u = Some u' -> sound strict u'.
Proof.
  induction evs as [|ev evs IH]; intros u u' Hevs Hu Hrun; simpl in Hrun.
  - now injection Hrun as <-.
  - destruct (handle uriErrorMessage u ev) as [u1|] eqn:E; [|discriminate].
    apply (IH u1 u'); [| |exact Hrun].
    + intros Hs. apply Hevs in Hs. simpl in Hs.
      now apply andb_true_iff in Hs.
    + apply (sound_handle u u1 ev); [|assumption|assumption].
      intros Hs. apply Hevs in Hs. simpl in Hs.
      now apply andb_true_iff in Hs.
Qed.

End Invariant.

Lemma sound_start (strict : bool) : sound strict start.
Proof.
  split; [|constructor]. split; simpl; discriminate.
Qed.

Lemma ui_run_run (uriErrorMessage : jsstring) (evs : list Event) :
  forall u u', ui_run uriErrorMessage evs u = Some u' ->
  run uriErrorMessage evs u = Some u'.
Proof.
  induction evs as [|ev evs IH]; intros u u' H; simpl in *; [assumption|].
  unfold ui_handle in H. destruct (enabled (cells u) ev); [|discriminate].
  destruct (handle uriErrorMessage u ev) as [u1|]; [|discriminate].
  now apply IH.
Qed.

(** C7, as amended: in every state the page can reach (with or without the
    disabled controls being honoured) exactly one of the four states is
    active; in the error state a message is present, and it is non-empty
    as long as no [Error] with an empty message came from the engine or the
    network; in the success state a record with a non-empty [play] is
    present. *)
Theorem page_invariant (uriErrorMessage : jsstring) (evs : list Event) (u : Ui) :
  run uriErrorMessage evs start = Some u ->
  List.length (filter (fun s => active s (cells u)) [idle; loading; success; error])
    = 1%nat
  /\ (status (cells u) = error ->
      exists m, error_ (cells u) = Some m
        /\ (uriErrorMessage <> [] -> forallb named evs = true -> m <> []))
  /\ (status (cells u) = success ->
      exists d, videoData (cells u) = Some d /\ play d <> []).
Proof.
  intros Hrun. split; [|split].
  - unfold active. destruct (status (cells u)); reflexivity.
  - intros Herr.
    assert (Hweak : sound false u).
    { apply (sound_run uriErrorMessage false) with (evs := evs) (u := start);
        [discriminate | discriminate | apply sound_start | exact Hrun]. }
    destruct (proj1 (proj1 Hweak) Herr) as [m [Hm _]].
    exists m. split; [exact Hm|]. intros Huri Hevs.
    assert (Hstrong : sound true u).
    { apply (sound_run uriErrorMessage true) with (evs := evs) (u := start);
        [auto | auto | apply sound_start | exact Hrun]. }
    destruct (proj1 (proj1 Hstrong) Herr) as [m' [Hm' Hne]].
    rewrite Hm in Hm'. injection Hm' as <-. now apply Hne.
  - intros Hsucc.
    assert (Hweak : sound false u).
    { apply (sound_run uriErrorMessage false) with (evs := evs) (u := start);
        [discriminate | discriminate | apply sound_start | exact Hrun]. }
    exact (proj2 (proj1 Hweak) Hsucc).
Qed.

(** ** The order of the transitions *)

Lemma follows_segment (ph : Phase) (p : Proc unit) :
  forall st, follows ph p st ->
  match snd (segment p st) with
  | Finished _ =>
      status (fst (segment p st)) = error
      \/ (ph = parsed /\ status (fst (segment p st)) = success)
  | Uncaught _ => False
  | Suspended q => follows ph q (fst (segment p st))
  end.
Proof.
  induction p as [a|e|eff k IH|req k IH|r k IH]; intros st H.
  - exact H.
  - exact H.
  - apply (IH (update eff st)), H.
  - exact H.
  - exact H.
Qed.

Lemma follows_handleDownload (uriErrorMessage u : jsstring) (st : AppState) :
  follows submitting (handleDownload uriErrorMessage u) st.
Proof.
  unfold handleDownload, encodeOrThrow. cbn.
  destruct (truthy (trim u)); cbn; [|now left].
  destruct (encodeURIComponent (trim u)) as [query|]; cbn; [|now left].
  split; [reflexivity|]. split; [reflexivity|].
  intros [[[|] j]|e]; cbn; try (now left).
  split; [reflexivity|]. split; [reflexivity|].
  destruct j as [payload|e]; cbn; [|now left].
  destruct (code payload =? 0)%Z; cbn; [|now left].
  destruct (hasPlay payload); cbn; [|now left].
  right. split; reflexivity.
Qed.

Lemma orderly_idle (u : Ui) :
  orderly u -> isLoading (cells u) = false -> tasks u = [].
Proof.
  unfold orderly, isLoading. intros H Hl.
  destruct (tasks u) as [|[a|e|eff k|req k|r k] [|q rest]];
    try reflexivity; try contradiction; simpl in H;
    destruct H as [_ [H _]]; rewrite H in Hl; discriminate.
Qed.

Lemma not_loading (st : AppState) :
  isLoading st = false <-> status st <> loading.
Proof.
  unfold isLoading. destruct (status st); simpl; split; congruence.
Qed.

Lemma segment_parks {A : Type} (p : Proc A) :
  forall st q, snd (segment p st) = Suspended q ->
  (exists req k, q = AwaitFetch req k) \/ (exists r k, q = AwaitJson r k).
Proof.
  induction p as [a|e|eff k IH|req k IH|r k IH]; intros st q H; simpl in H;
    try discriminate.
  - eapply IH, H.
  - injection H as <-. left. eauto.
  - injection H as <-. right. eauto.
Qed.

Lemma segment_handleDownload_status (uriErrorMessage u : jsstring)
    (st : AppState) :
  status (fst (segment (handleDownload uriErrorMessage u) st)) =
    match trim u, encodeURIComponent (trim u) with
    | _ :: _, Some _ => loading
    | _, _ => error
    end.
Proof.
  unfold handleDownload, encodeOrThrow. cbn.
  destruct (trim u) as [|c rest]; cbn; [reflexivity|].
  destruct (encodeURIComponent (c :: rest)); reflexivity.
Qed.

Section Order.

Variable uriErrorMessage : jsstring.

(** After a stretch that was started in phase [ph], the page with the run
    parked (if it parked) as its only task is orderly again. *)
Lemma orderly_after (ph : Phase) (p : Proc unit) (st : AppState) :
  follows ph p st ->
  orderly {| cells := fst (segment p st);
             tasks := parked (snd (segment p st)) |}
  /\ (status (fst (segment p st)) = error
      \/ (ph = parsed /\ status (fst (segment p st)) = success)
      \/ (ph <> parsed /\ status (fst (segment p st)) = loading)).
Proof.
  intros H. pose proof (follows_segment ph p st H) as F.
  pose proof (segment_parks p st) as P.
  destruct (segment p st) as [st' [a|e|q]]; simpl in *.
  - split; [|tauto]. unfold orderly; simpl.
    destruct F as [F|[_ F]]; rewrite F; discriminate.
  - contradiction.
  - destruct (P q eq_refl) as [[req [k ->]]|[r [k ->]]]; simpl in F.
    + destruct F as [-> [F1 F2]]. split.
      * unfold orderly; simpl. auto.
      * right. right. split; [discriminate|assumption].
    + destruct F as [-> [F1 F2]]. split.
      * unfold orderly; simpl. auto.
      * right. right. split; [discriminate|assumption].
Qed.

Lemma orderly_step (u u' : Ui) (ev : Event) :
  orderly u -> ui_handle uriErrorMessage u ev = Some u' ->
  orderly u' /\ caused u ev u'.
Proof.
  intros Hu Hstep. unfold ui_handle in Hstep.
  destruct ev as [v| |i o|i]; simpl in Hstep.
  - destruct (isLoading (cells u)) eqn:El; [discriminate|]. simpl in Hstep.
    injection Hstep as <-. split; [|reflexivity].
    pose proof (orderly_idle u Hu El) as Ht.
    unfold orderly in *. simpl. rewrite Ht in *. exact Hu.
  - destruct (isLoading (cells u)) eqn:El; [discriminate|]. simpl in Hstep.
    pose proof (orderly_idle u Hu El) as Ht. rewrite Ht in Hstep.
    pose proof (orderly_after submitting _ (cells u)
                  (follows_handleDownload uriErrorMessage
                     (url (cells u)) (cells u))) as [O _].
    pose proof (segment_handleDownload_status uriErrorMessage
                  (url (cells u)) (cells u)) as S.
    destruct (segment _ (cells u)) as [st r]. injection Hstep as <-.
    simpl in *. split; [exact O|].
    split; [now apply not_loading|].
    destruct (trim (url (cells u))) as [|c rest].
    + right. split; [now left|exact S].
    + destruct (encodeURIComponent (c :: rest)).
      * left. repeat split; [discriminate|discriminate|exact S].
      * right. split; [now right|exact S].
  - unfold orderly in Hu.
    destruct (tasks u) as [|q [|q' rest]] eqn:Et;
      [destruct i; discriminate| |destruct q; contradiction].
    destruct i as [|i]; simpl in Hstep; [|destruct i; discriminate].
    destruct q as [a|e|eff k|req k|r k]; try discriminate; simpl in Hu.
    destruct Hu as [_ [Hl Hk]].
    pose proof (orderly_after fetched (k o) (cells u) (Hk o)) as [O C].
    destruct (segment (k o) (cells u)) as [st r]. injection Hstep as <-.
    simpl in *. split; [exact O|]. split; [exact Hl|].
    destruct C as [C|[[C _]|[_ C]]]; [now right|discriminate|now left].
  - unfold orderly in Hu.
    destruct (tasks u) as [|q [|q' rest]] eqn:Et;
      [destruct i; discriminate| |destruct q; contradiction].
    destruct i as [|i]; simpl in Hstep; [|destruct i; discriminate].
    destruct q as [a|e|eff k|req k|r k]; try discriminate; simpl in Hu.
    destruct Hu as [_ [Hl Hk]].
    pose proof (orderly_after parsed (k (json r)) (cells u) Hk) as [O C].
    destruct (segment (k (json r)) (cells u)) as [st r']. injection Hstep as <-.
    simpl in *. split; [exact O|]. split; [exact Hl|].
    destruct C as [C|[[_ C]|[C _]]]; [now right|now left|contradiction].
Qed.

Lemma orderly_run (evs : list Event) :
  forall u u', orderly u -> ui_run uriErrorMessage evs u = Some u' ->
  orderly u'.
Proof.
  induction evs as [|ev evs IH]; intros u u' Hu Hrun; simpl in Hrun.
  - now injection Hrun as <-.
  - destruct (ui_handle uriErrorMessage u ev) as [u1|] eqn:E; [|discriminate].
    apply (IH u1 u'); [|exact Hrun].
    exact (proj1 (orderly_step u u1 ev Hu E)).
Qed.

(** C6, as amended: in the page as rendered, a submission leaves idle,
    error or success for loading when it issues a request and for error
    when the input is blank or cannot be encoded; the settling of the
    request leaves loading for error or stays loading while the body is
    read; the settling of the body leaves loading for success or error;
    typing leaves the status alone.  Nothing else moves the status. *)
Theorem transitions (evs : list Event) (u u' : Ui) (ev : Event) :
  ui_run uriErrorMessage evs start = Some u ->
  ui_handle uriErrorMessage u ev = Some u' ->
  caused u ev u'.
Proof.
  intros Hrun Hstep.
  assert (Hu : orderly u).
  { apply (orderly_run evs start u); [|exact Hrun].
    unfold orderly; simpl. discriminate. }
  exact (proj2 (orderly_step u u' ev Hu Hstep)).
Qed.

End Order.

(** ** The scenarios, run *)

(** C1 at the scenario of the specification: the link of a public video,
    answered with [code] 0 and a full record. *)
Lemma success_record_witness :
  let x := exec (answering (replying found))
             (handleDownload engine (url (typed link))) (typed link) in
  In (HttpGet linkRequest) (trace x)
  /\ status (final x) = success
  /\ exists v, videoData (final x) = Some v
       /\ play v = lit "https://cdn/x.mp4"
       /\ title v = lit "T"
       /\ nickname (author v) = lit "user"
       /\ cover v = lit "https://cdn/c.jpg".
Proof.
  assert (Hin : In (HttpGet linkRequest)
                  (trace (exec (answering (replying found))
                            (handleDownload engine (url (typed link)))
                            (typed link)))).
  { vm_compute. do 4 right. left. reflexivity. }
  split; [exact Hin|].
  apply (success_record engine (answering (replying found)) (typed link)
           linkRequest (replying found) found video Hin);
    try reflexivity.
  discriminate.
Defined.

(** C2 fails as stated: on the empty input the message is not
    "Please paste a link." *)
Lemma blank_message_differs :
  let x := exec (failing OtherValue)
             (handleDownload engine (url initial)) initial in
  forallb isWhiteSpace (url initial) = true
  /\ error_ (final x) = Some (lit "Please paste a TikTok link.")
  /\ ~ (status (final x) = error
        /\ error_ (final x) = Some (lit "Please paste a link.")
        /\ requests (trace x) = []).
Proof.
  split; [reflexivity|]. split; [reflexivity|].
  intros [_ [H _]]. discriminate H.
Qed.

Lemma blank_input_rejected_witness :
  let st := typed (lit "   ") in
  let x := exec (failing OtherValue) (handleDownload engine (url st)) st in
  forallb isWhiteSpace (url st) = true
  /\ status (final x) = error
  /\ error_ (final x) = Some (lit "Please paste a TikTok link.")
  /\ requests (trace x) = [].
Proof.
  split; [reflexivity|].
  apply (blank_input_rejected engine (failing OtherValue) (typed (lit "   "))).
  reflexivity.
Defined.

(** C3 fails as stated: when the request is rejected with the browser's own
    [TypeError], that error's message is shown, not the connectivity
    message of the handler. *)
Lemma rejection_message_differs :
  let net := failing (ErrorValue (lit "Failed to fetch")) in
  let x := exec net (handleDownload engine (url (typed link))) (typed link) in
  In (HttpGet linkRequest) (trace x)
  /\ net linkRequest = Rejected (ErrorValue (lit "Failed to fetch"))
  /\ error_ (final x) = Some (lit "Failed to fetch")
  /\ ~ (status (final x) = error
        /\ error_ (final x) =
             Some (lit "Failed to contact the download service. Please try again.")).
Proof.
  split; [vm_compute; do 4 right; left; reflexivity|].
  split; [reflexivity|]. split; [reflexivity|].
  intros [_ H]. discriminate H.
Qed.

Lemma transport_failure_witness :
  let x := exec (answering unavailable)
             (handleDownload engine (url (typed link))) (typed link) in
  In (HttpGet linkRequest) (trace x)
  /\ ok unavailable = false
  /\ status (final x) = error
  /\ error_ (final x) =
       Some (lit "Failed to contact the download service. Please try again.").
Proof.
  assert (Hin : In (HttpGet linkRequest)
                  (trace (exec (answering unavailable)
                            (handleDownload engine (url (typed link)))
                            (typed link)))).
  { vm_compute. do 4 right. left. reflexivity. }
  split; [exact Hin|]. split; [reflexivity|].
  exact (proj1 (transport_failure engine (answering unavailable) (typed link)
                  linkRequest Hin) unavailable eq_refl eq_refl).
Defined.


(** C5 fails as stated: the query carries the trimmed input, so the leading
    space of [" a"] is not sent. *)
Lemma raw_input_not_sent :
  let st := typed (lit " a") in
  let x := exec (failing OtherValue) (handleDownload engine (url st)) st in
  trim (url st) <> []
  /\ encodeURIComponent (url st) = Some (lit "%20a")
  /\ requests (trace x) = [lit "https://www.tikwm.com/api/?url=a"]
  /\ requests (trace x) <> [API_ENDPOINT ++ lit "?url=" ++ lit "%20a"].
Proof.
  split; [discriminate|]. split; [reflexivity|]. split; [reflexivity|].
  discriminate.
Qed.

Lemma one_request_witness :
  let st := typed (lit " a") in
  let x := exec (failing OtherValue) (handleDownload engine (url st)) st in
  trim (url st) <> []
  /\ requests (trace x) = [lit "https://www.tikwm.com/api/?url=a"].
Proof.
  assert (Hne : trim (url (typed (lit " a"))) <> []) by discriminate.
  split; [exact Hne|].
  exact (one_request engine (failing OtherValue) (typed (lit " a")) Hne).
Defined.

Lemma loading_before_request_witness :
  let st := typed link in
  trim (url st) <> []
  /\ exists k,
       segment (handleDownload engine (url st)) st =
         (cleared st, Suspended (AwaitFetch linkRequest k)).
Proof.
  assert (Hne : trim (url (typed link)) <> []) by discriminate.
  split; [exact Hne|].
  exact (proj2 (loading_before_request engine (failing OtherValue)
                  (typed link) Hne)
           (lit "https%3A%2F%2Fwww.tiktok.com%2F%40user%2Fvideo%2F1") eq_refl).
Defined.

Lemma blank_input_frame_witness :
  let st :=
    {| url := lit " "; status := success; error_ := None;
       videoData := Some video |} in
  let x := exec (failing OtherValue) (handleDownload engine (url st)) st in
  forallb isWhiteSpace (url st) = true
  /\ videoData (final x) = Some video
  /\ url (final x) = lit " ".
Proof.
  split; [reflexivity|].
  destruct (blank_input_frame engine (failing OtherValue)
              {| url := lit " "; status := success; error_ := None;
                 videoData := Some video |} eq_refl) as [Hv [Hu _]].
  split; [exact Hv|exact Hu].
Defined.

(** C6 fails as stated: submitting the empty form takes the page from idle
    straight to error. *)
Lemma blank_submission_skips_loading :
  exists u',
    ui_run engine [] start = Some start
    /\ ui_handle engine start Submit = Some u'
    /\ status (cells start) = idle
    /\ status (cells u') = error.
Proof.
  eexists. repeat split.
Qed.

Lemma transitions_witness :
  exists u u',
    ui_run engine [Change link] start = Some u
    /\ ui_handle engine u Submit = Some u'
    /\ caused u Submit u'
    /\ status (cells u') = loading.
Proof.
  eexists. eexists.
  assert (Hrun : ui_run engine [Change link] start
                 = Some {| cells := typed link; tasks := [] |})
    by reflexivity.
  split; [exact Hrun|].
  assert (Hstep : ui_handle engine {| cells := typed link; tasks := [] |} Submit
                  = ui_handle engine {| cells := typed link; tasks := [] |} Submit)
    by reflexivity.
  unfold ui_handle at 2 in Hstep. cbn in Hstep.
  split; [exact Hstep|].
  split; [exact (transitions engine [Change link] _ _ Submit Hrun Hstep)|].
  reflexivity.
Defined.

(** C7 fails as stated: a request rejected with an [Error] whose message is
    empty leaves the page in the error state with the empty message. *)
Lemma empty_message_reachable :
  exists u,
    ui_run engine
      [Change link; Submit; FetchSettled 0 (Rejected (ErrorValue []))] start
      = Some u
    /\ status (cells u) = error
    /\ error_ (cells u) = Some []
    /\ ~ (exists m, error_ (cells u) = Some m /\ m <> []).
Proof.
  eexists. split; [reflexivity|]. split; [reflexivity|].
  split; [reflexivity|].
  intros [m [H Hm]]. injection H as <-. now apply Hm.
Qed.

Lemma page_invariant_witness :
  exists u,
    run engine
      [Change link; Submit; FetchSettled 0 (Fulfilled (replying found));
       JsonSettled 0] start = Some u
    /\ status (cells u) = success
    /\ exists d, videoData (cells u) = Some d /\ play d <> [].
Proof.
  eexists.
  assert (Hrun : run engine
      [Change link; Submit; FetchSettled 0 (Fulfilled (replying found));
       JsonSettled 0] start
      = Some {| cells := {| url := link; status := success; error_ := None;
                            videoData := Some video |};
                tasks := [] |}) by reflexivity.
  split; [exact Hrun|]. split; [reflexivity|].
  exact (proj2 (proj2 (page_invariant engine _ _ Hrun)) eq_refl).
Defined.

(** * Further properties of the handler and the page *)

(** ** What [trim] keeps *)

Lemma trimStart_split (s : jsstring) :
  exists pre, s = pre ++ trimStart s /\ forallb isWhiteSpace pre = true.
Proof.
  induction s as [|c s [pre [E W]]]; simpl.
  - exists []. split; reflexivity.
  - destruct (isWhiteSpace c) eqn:Ec.
    + exists (c :: pre). simpl. rewrite Ec, W. split; [now f_equal|reflexivity].
    + exists []. split; reflexivity.
Qed.

Lemma trimEnd_split (s : jsstring) :
  exists post, s = trimEnd s ++ post /\ forallb isWhiteSpace post = true.
Proof.
  destruct (trimStart_split (rev s)) as [pre [E W]].
  exists (rev pre). split.
  - unfold trimEnd. rewrite <- rev_app_distr, <- E. symmetry. apply rev_involutive.
  - rewrite forallb_forall in *. intros c Hc. apply W. now apply in_rev.
Qed.

Lemma trimStart_app_blank (pre s : jsstring) :
  forallb isWhiteSpace pre = true -> trimStart (pre ++ s) = trimStart s.
Proof.
  induction pre as [|c pre IH]; simpl; [reflexivity|].
  destruct (isWhiteSpace c); [exact IH|discriminate].
Qed.

Lemma trimStart_app_kept (s post : jsstring) :
  trimStart s <> [] -> trimStart (s ++ post) = trimStart s ++ post.
Proof.
  induction s as [|c s IH]; simpl; [congruence|].
  destruct (isWhiteSpace c); [exact IH|reflexivity].
Qed.

Lemma trimEnd_app_blank (s post : jsstring) :
  forallb isWhiteSpace post = true -> trimEnd (s ++ post) = trimEnd s.
Proof.
  intros W. unfold trimEnd. rewrite rev_app_distr, trimStart_app_blank;
    [reflexivity|].
  rewrite forallb_forall in *. intros c Hc. apply W. now apply in_rev.
Qed.

Lemma forallb_app_true {A : Type} (f : A -> bool) (a b : list A) :
  forallb f a = true -> forallb f b = true -> forallb f (a ++ b) = true.
Proof.
  intros Ha Hb. rewrite forallb_app, Ha, Hb. reflexivity.
Qed.

(** White space around a string does not change what [trim] returns. *)
Lemma trim_padding (pre s post : jsstring) :
  forallb isWhiteSpace pre = true -> forallb isWhiteSpace post = true ->
  trim (pre ++ s ++ post) = trim s.
Proof.
  intros Wpre Wpost.
  destruct (trimStart s) as [|c rest] eqn:E.
  - apply trimStart_blank in E.
    rewrite (proj2 (trim_blank s) E).
    apply trim_blank. repeat apply forallb_app_true; assumption.
  - unfold trim. rewrite trimStart_app_blank by assumption.
    rewrite trimStart_app_kept by (rewrite E; discriminate).
    now rewrite trimEnd_app_blank.
Qed.

(** [trim s] is [s] without a run of white space at either end, and it
    neither starts nor ends with white space. *)
Lemma trim_spec (s : jsstring) :
  (exists pre post,
     s = pre ++ trim s ++ post
     /\ forallb isWhiteSpace pre = true
     /\ forallb isWhiteSpace post = true)
  /\ (forall c rest, trim s = c :: rest -> isWhiteSpace c = false)
  /\ (forall front c, trim s = front ++ [c] -> isWhiteSpace c = false).
Proof.
  destruct (trimStart_split s) as [pre [E1 W1]].
  destruct (trimEnd_split (trimStart s)) as [post [E2 W2]].
  split; [|split].
  - exists pre, post. unfold trim. rewrite <- E2. auto.
  - intros c rest H. unfold trim in H. rewrite H in E2. simpl in E2.
    eapply trimStart_head. exact E2.
  - intros front c H. unfold trim, trimEnd in H.
    apply (f_equal (@rev N)) in H.
    rewrite rev_involutive, rev_app_distr in H. simpl in H.
    eapply trimStart_head. exact H.
Qed.

Lemma trim_code_units (s : jsstring) :
  Forall isCodeUnit s -> Forall isCodeUnit (trim s).
Proof.
  intros H. destruct (proj1 (trim_spec s)) as [pre [post [E _]]].
  rewrite E in H. apply Forall_app in H. destruct H as [_ H].
  apply Forall_app in H. tauto.
Qed.

(** ** What [encodeURIComponent] puts out *)

Lemma lor_below (a b n : N) : a < 2 ^ n -> b < 2 ^ n -> N.lor a b < 2 ^ n.
Proof.
  intros Ha Hb.
  destruct (N.eq_dec a 0) as [->|Na]; [now rewrite N.lor_0_l|].
  destruct (N.eq_dec b 0) as [->|Nb]; [now rewrite N.lor_0_r|].
  assert (Hl : N.lor a b <> 0).
  { intros H. apply N.lor_eq_0_iff in H. tauto. }
  apply N.log2_lt_pow2; [lia|].
  rewrite N.log2_lor.
  apply N.max_lub_lt; apply N.log2_lt_pow2; lia.
Qed.

Lemma shiftr_below (a k n : N) : a < 2 ^ (n + k) -> N.shiftr a k < 2 ^ n.
Proof.
  intros H. rewrite N.shiftr_div_pow2.
  apply N.Div0.div_lt_upper_bound.
  now rewrite <- N.pow_add_r, N.add_comm.
Qed.

Lemma land_low_below (a n : N) : N.land a (N.ones n) < 2 ^ n.
Proof.
  rewrite N.land_ones. apply N.mod_lt. apply N.pow_nonzero. discriminate.
Qed.

Lemma hexDigit_unescaped (d : N) : d < 16 -> uriUnescaped (hexDigit d) = true.
Proof.
  intros H.
  assert (E : d = 0 \/ d = 1 \/ d = 2 \/ d = 3 \/ d = 4 \/ d = 5 \/ d = 6
              \/ d = 7 \/ d = 8 \/ d = 9 \/ d = 10 \/ d = 11 \/ d = 12
              \/ d = 13 \/ d = 14 \/ d = 15) by lia.
  repeat (destruct E as [->|E]; [reflexivity|]). now subst.
Qed.

Lemma percent_safe (octet : N) :
  octet < 256 -> forallb querySafe (percent octet) = true.
Proof.
  intros H. unfold percent. cbn [forallb]. unfold querySafe at 2 3.
  rewrite (hexDigit_unescaped (N.shiftr octet 4)).
  - rewrite (hexDigit_unescaped (N.land octet 0xF)); [reflexivity|].
    exact (land_low_below octet 4).
  - apply (shiftr_below octet 4 4). exact H.
Qed.

Lemma utf8_octets (cp : N) :
  cp < 0x110000 -> Forall (fun o => o < 256) (utf8 cp).
Proof.
  intros H. unfold utf8.
  assert (L6 : forall a, N.lor 0x80 (N.land a 0x3F) < 256).
  { intros a. apply (lor_below _ _ 8); [reflexivity|].
    eapply N.lt_trans; [exact (land_low_below a 6)|reflexivity]. }
  destruct (cp <? 0x80) eqn:E1; [apply N.ltb_lt in E1|apply N.ltb_ge in E1].
  { repeat constructor. lia. }
  destruct (cp <? 0x800) eqn:E2; [apply N.ltb_lt in E2|apply N.ltb_ge in E2].
  { repeat constructor; [|apply L6].
    apply (lor_below _ _ 8); [reflexivity|].
    eapply N.lt_trans; [apply (shiftr_below cp 6 5); exact E2|reflexivity]. }
  destruct (cp <? 0x10000) eqn:E3; [apply N.ltb_lt in E3|apply N.ltb_ge in E3].
  { repeat constructor; try apply L6.
    apply (lor_below _ _ 8); [reflexivity|].
    eapply N.lt_trans; [apply (shiftr_below cp 12 4); exact E3|reflexivity]. }
  repeat constructor; try apply L6.
  apply (lor_below _ _ 8); [reflexivity|].
  eapply N.lt_trans; [apply (shiftr_below cp 18 3)|reflexivity].
  eapply N.lt_trans; [exact H|reflexivity].
Qed.

Lemma percentAll_safe (octets : list N) :
  Forall (fun o => o < 256) octets ->
  forallb querySafe (percentAll octets) = true.
Proof.
  induction 1 as [|o octets Ho _ IH]; [reflexivity|].
  unfold percentAll in *. cbn [flat_map].
  apply forallb_app_true; [now apply percent_safe|exact IH].
Qed.

Lemma pair_code_point (lead trail : N) :
  isLeadingSurrogate lead = true -> isTrailingSurrogate trail = true ->
  UTF16SurrogatePairToCodePoint lead trail < 0x110000.
Proof.
  unfold isLeadingSurrogate, isTrailingSurrogate,
    UTF16SurrogatePairToCodePoint.
  rewrite !andb_true_iff, !N.leb_le. lia.
Qed.

Lemma encodeURIComponent_nil : encodeURIComponent [] = Some [].
Proof. reflexivity. Qed.

Lemma encodeURIComponent_cons (c : N) (rest : jsstring) :
  encodeURIComponent (c :: rest) =
    if uriUnescaped c then option_map (cons c) (encodeURIComponent rest)
    else if isTrailingSurrogate c then None
    else if isLeadingSurrogate c then
      match rest with
      | [] => None
      | c2 :: rest' =>
          if isTrailingSurrogate c2 then
            option_map
              (app (percentAll (utf8 (UTF16SurrogatePairToCodePoint c c2))))
              (encodeURIComponent rest')
          else None
      end
    else option_map (app (percentAll (utf8 c))) (encodeURIComponent rest).
Proof. reflexivity. Qed.

(** Every code unit of an encoded string is unreserved or a percent sign:
    no [&], [=], [#], [?], [/] or space comes through. *)
Lemma encodeURIComponent_safe (s : jsstring) :
  forall q, Forall isCodeUnit s -> encodeURIComponent s = Some q ->
  forallb querySafe q = true.
Proof.
  assert (H : forall n s, (List.length s <= n)%nat ->
            forall q, Forall isCodeUnit s -> encodeURIComponent s = Some q ->
            forallb querySafe q = true).
  { clear s. induction n as [|n IH]; intros [|c s] Hlen q Hs Henc;
      simpl in Hlen; try lia;
      try (rewrite encodeURIComponent_nil in Henc;
           injection Henc as <-; reflexivity).
    rewrite encodeURIComponent_cons in Henc.
    apply Forall_cons_iff in Hs. destruct Hs as [Hc Hs].
    destruct (uriUnescaped c) eqn:Eu.
    - destruct (encodeURIComponent s) as [q'|] eqn:Eq; simpl in Henc; [|discriminate].
      injection Henc as <-. simpl. unfold querySafe at 1. rewrite Eu. simpl.
      apply (IH s); [lia|assumption|assumption].
    - destruct (isTrailingSurrogate c); [discriminate|].
      destruct (isLeadingSurrogate c) eqn:El.
      + destruct s as [|c2 s']; [discriminate|].
        destruct (isTrailingSurrogate c2) eqn:Et; [|discriminate].
        destruct (encodeURIComponent s') as [q'|] eqn:Eq; simpl in Henc; [|discriminate].
        injection Henc as <-. apply Forall_cons_iff in Hs. simpl in Hlen.
        apply forallb_app_true.
        * apply percentAll_safe, utf8_octets. now apply pair_code_point.
        * apply (IH s'); [lia|tauto|assumption].
      + destruct (encodeURIComponent s) as [q'|] eqn:Eq; simpl in Henc; [|discriminate].
        injection Henc as <-. apply forallb_app_true.
        * apply percentAll_safe, utf8_octets. unfold isCodeUnit in Hc. lia.
        * apply (IH s); [lia|assumption|assumption]. }
  intros q. apply (H (List.length s) s (le_n _)).
Qed.

(** ** More about one submission *)

Lemma ConsoleError_inj (a b : Thrown) :
  Performed (ConsoleError a) = Performed (ConsoleError b) -> a = b.
Proof. congruence. Qed.

(** Names the value behind [Hin : In (Performed (ConsoleError e)) log] for
    a literal [log], or closes the goal when [log] holds no such entry. *)
Ltac the_logged Hin :=
  cbn [In] in Hin;
  repeat (destruct Hin as [Hin|Hin];
          [ first [ discriminate Hin
                  | apply ConsoleError_inj in Hin; destruct Hin ] | ]);
  try contradiction.

Lemma handleDownload_trim (uriErrorMessage u v : jsstring) :
  trim u = trim v ->
  handleDownload uriErrorMessage u = handleDownload uriErrorMessage v.
Proof. intros E. unfold handleDownload. now rewrite E. Qed.

Lemma trace_any_state {A : Type} (net : jsstring -> Settled Response)
    (p : Proc A) :
  forall st st', trace (exec net p st) = trace (exec net p st').
Proof.
  unfold trace.
  induction p as [a|e|eff k IH|req k IH|r k IH]; intros st st'; simpl.
  - reflexivity.
  - reflexivity.
  - specialize (IH (update eff st) (update eff st')).
    destruct (exec net k (update eff st)) as [[s1 l1] r1].
    destruct (exec net k (update eff st')) as [[s2 l2] r2].
    simpl in *. now rewrite IH.
  - specialize (IH (net req) st st').
    destruct (exec net (k (net req)) st) as [[s1 l1] r1].
    destruct (exec net (k (net req)) st') as [[s2 l2] r2].
    simpl in *. now rewrite IH.
  - specialize (IH (json r) st st').
    destruct (exec net (k (json r)) st) as [[s1 l1] r1].
    destruct (exec net (k (json r)) st') as [[s2 l2] r2].
    simpl in *. now rewrite IH.
Qed.

(** X4: white space typed before or after the link changes nothing of what
    the handler does: the same setters are called with the same values and
    the same request goes out. *)
Theorem padding_ignored (uriErrorMessage : jsstring)
    (net : jsstring -> Settled Response) (st st' : AppState)
    (pre post : jsstring) :
  url st' = pre ++ url st ++ post ->
  forallb isWhiteSpace pre = true ->
  forallb isWhiteSpace post = true ->
  trace (exec net (handleDownload uriErrorMessage (url st')) st') =
  trace (exec net (handleDownload uriErrorMessage (url st)) st).
Proof.
  intros E Wpre Wpost.
  rewrite (handleDownload_trim uriErrorMessage (url st') (url st)).
  - apply trace_any_state.
  - rewrite E. now apply trim_padding.
Qed.

Section SubmissionMore.

Variable uriErrorMessage : jsstring.
Variable net : jsstring -> Settled Response.
Variable st : AppState.

Let x := exec net (handleDownload uriErrorMessage (url st)) st.

(** X1: a submission never writes the text of the input field, whatever
    the input and whatever the network does. *)
Theorem input_text_kept :
  url (final x) = url st
  /\ forall v, ~ In (Performed (SetUrl v)) (trace x).
Proof.
  subst x. branches net (url st); (split; [reflexivity|]);
    intros v Hin; cbn [In] in Hin;
    repeat (destruct Hin as [Hin|Hin]; [discriminate Hin|]);
    contradiction.
Qed.

(** X2: a submission sends at most one request (there is no retry), and it
    reads a body only from a response that came back with an OK status. *)
Theorem at_most_one_request :
  (List.length (requests (trace x)) <= 1)%nat
  /\ (In BodyRead (trace x) ->
      exists req r,
        requests (trace x) = [req]
        /\ net req = Fulfilled r
        /\ ok r = true).
Proof.
  subst x. branches net (url st);
    (split; [simpl; lia|]); intros Hin; cbn [In] in Hin;
    repeat (destruct Hin as [Hin|Hin]; [try discriminate Hin|]);
    try contradiction;
    eexists; eexists; (split; [reflexivity|]);
    (split; [exact Enet|reflexivity]).
Qed.

(** X3: after a submission with a non-blank input the page holds either a
    record and no message (success) or a message and no record (error),
    never both and never neither. *)
Theorem finished_cells :
  trim (url st) <> [] ->
  (status (final x) = success
   /\ error_ (final x) = None /\ videoData (final x) <> None)
  \/ (status (final x) = error
      /\ videoData (final x) = None /\ error_ (final x) <> None).
Proof.
  intros Hne. apply truthy_nonempty in Hne. subst x.
  branches net (url st); try congruence;
    try (right; repeat split; discriminate).
  left. repeat split. unfold hasPlay in Eplay.
  destruct (data payload); [discriminate|discriminate].
Qed.

(** X5: when the input is a string of 16-bit code units, the request is the
    endpoint followed by [?url=] and a query made only of unreserved
    characters and percent signs, so the link cannot add a parameter, a
    fragment or a path of its own. *)
Theorem request_query_safe (req : jsstring) :
  Forall isCodeUnit (url st) ->
  In (HttpGet req) (trace x) ->
  exists q,
    req = API_ENDPOINT ++ lit "?url=" ++ q
    /\ forallb querySafe q = true.
Proof.
  intros Hcu. apply trim_code_units in Hcu. subst x.
  branches net (url st); intros Hin; the_request Hin;
    exists query; (split; [reflexivity|]);
    exact (encodeURIComponent_safe _ _ Hcu Eenc).
Qed.

(** X6: what a request carries is the input without the white space at its
    two ends: the encoded part is non-empty, neither starts nor ends with
    white space, and only white space was dropped around it. *)
Theorem request_carries_trimmed_input (req : jsstring) :
  In (HttpGet req) (trace x) ->
  exists pre t post q,
    url st = pre ++ t ++ post
    /\ forallb isWhiteSpace pre = true
    /\ forallb isWhiteSpace post = true
    /\ t <> []
    /\ (forall c rest, t = c :: rest -> isWhiteSpace c = false)
    /\ (forall front c, t = front ++ [c] -> isWhiteSpace c = false)
    /\ encodeURIComponent t = Some q
    /\ req = API_ENDPOINT ++ lit "?url=" ++ q.
Proof.
  destruct (trim_spec (url st)) as [[pre [post [E [W1 W2]]]] [Hh Hl]].
  subst x. branches net (url st); intros Hin; the_request Hin;
    exists pre, (trim (url st)), post, query;
    apply truthy_nonempty in Etrim; repeat split; assumption.
Qed.

(** X7: a request goes out exactly when the trimmed input is non-empty and
    has no unpaired surrogate. *)
Theorem request_iff_sendable :
  requests (trace x) <> []
  <-> trim (url st) <> [] /\ isWellFormed (trim (url st)) = true.
Proof.
  rewrite encodeURIComponent_wellFormed, <- truthy_nonempty. subst x.
  branches net (url st); split; intros H;
    try (split; [reflexivity|discriminate]);
    try discriminate;
    try (now elim H);
    try (destruct H as [H1 H2]; congruence).
Qed.

(** X8: an input that is not blank but holds an unpaired surrogate ends in
    the error state with the text of the engine's [URIError]; the error is
    logged, the old record is gone and nothing is sent. *)
Theorem unpaired_surrogate_rejected :
  trim (url st) <> [] ->
  isWellFormed (trim (url st)) = false ->
  status (final x) = error
  /\ error_ (final x) = Some uriErrorMessage
  /\ videoData (final x) = None
  /\ requests (trace x) = []
  /\ In (Performed (ConsoleError (ErrorValue uriErrorMessage))) (trace x).
Proof.
  intros Hne Hwf. apply truthy_nonempty in Hne.
  assert (Hnone : encodeURIComponent (trim (url st)) = None).
  { destruct (encodeURIComponent (trim (url st))) eqn:E; [|reflexivity].
    assert (isWellFormed (trim (url st)) = true)
      by (apply encodeURIComponent_wellFormed; congruence).
    congruence. }
  subst x. branches net (url st); try congruence.
  repeat split. simpl. tauto.
Qed.

(** X9: when the body of an OK response cannot be read (the promise of
    [response.json()] rejects), the run ends in the error state with the
    message of the rejection, and no record is stored. *)
Theorem body_rejected (req : jsstring) (r : Response) (e : Thrown) :
  In (HttpGet req) (trace x) ->
  net req = Fulfilled r ->
  ok r = true ->
  json r = Rejected e ->
  status (final x) = error
  /\ error_ (final x) = Some (displayed e)
  /\ videoData (final x) = None.
Proof.
  subst x. branches net (url st); intros Hin Hnet Hok Hjson; the_request Hin;
    rewrite Enet in Hnet; try discriminate Hnet;
    injection Hnet as <-; cbn in Hok, Hjson; try discriminate;
    injection Hjson as <-; repeat split.
Qed.

(** X10: an OK response whose body has no [data], or a [data] with an empty
    [play], ends in the error state even when [code] is 0; the message is
    [msg] or the fallback, and nothing of the body is stored. *)
Theorem missing_play_is_an_error (req : jsstring) (r : Response)
    (p : TikTokResponse) :
  In (HttpGet req) (trace x) ->
  net req = Fulfilled r ->
  ok r = true ->
  json r = Fulfilled p ->
  (data p = None \/ exists d, data p = Some d /\ play d = []) ->
  status (final x) = error
  /\ videoData (final x) = None
  /\ error_ (final x) =
       Some (orElse (msg p)
               (lit "Unable to fetch the video. Make sure the link is public.")).
Proof.
  subst x. branches net (url st);
    intros Hin Hnet Hok Hjson Hdata; the_request Hin;
    rewrite Enet in Hnet; try discriminate Hnet;
    injection Hnet as <-; cbn in Hok, Hjson; try discriminate;
    injection Hjson as <-; try (repeat split; fail).
  unfold hasPlay in Eplay.
  destruct Hdata as [Hd|[d [Hd Hp]]]; rewrite Hd in Eplay;
    [|rewrite Hp in Eplay]; discriminate.
Qed.

(** X11: what is logged is what is shown.  An error is logged only when
    the input passed validation, and then its message is the one
    displayed; conversely every failure after validation is logged. *)
Theorem logged_is_shown :
  (forall e, In (Performed (ConsoleError e)) (trace x) ->
     trim (url st) <> []
     /\ status (final x) = error
     /\ error_ (final x) = Some (displayed e))
  /\ (trim (url st) <> [] -> status (final x) = error ->
      exists e, In (Performed (ConsoleError e)) (trace x)).
Proof.
  subst x. branches net (url st); split;
    try (intros e Hin; the_logged Hin; apply truthy_nonempty in Etrim;
         repeat split; assumption);
    try (intros _ H; discriminate H);
    try (intros _ _; eexists; simpl; tauto).
  intros H. apply truthy_nonempty in H. congruence.
Qed.

(** X12: with a non-blank input the cells after the run depend on the
    input and the network only: whatever status, message and record the
    page held before is overwritten. *)
Theorem prior_cells_overwritten (st' : AppState) :
  url st' = url st ->
  trim (url st) <> [] ->
  final (exec net (handleDownload uriErrorMessage (url st')) st') = final x.
Proof.
  intros E Hne. apply truthy_nonempty in Hne. rewrite E. subst x.
  branches net (url st); try congruence; rewrite E; reflexivity.
Qed.

End SubmissionMore.

(** ** Every error, caught and turned into one message *)

Lemma error_panel (st : AppState) (m : jsstring) :
  status st = error -> error_ st = Some m ->
  panels (render st) = if truthy m then [ErrorAlert m] else [].
Proof.
  intros Hs He.
  unfold render, errorPanel, successPanel, loadingPanel, active. simpl.
  rewrite Hs, He. simpl. destruct (truthy m); reflexivity.
Qed.

Lemma displayed_empty (e : Thrown) : displayed e = [] -> e = ErrorValue [].
Proof.
  destruct e as [[|c s]|]; unfold displayed; intros H;
    [reflexivity|discriminate H|discriminate H].
Qed.

Lemma displayed_cases (e : Thrown) :
  (forall s, e = ErrorValue s -> displayed e = s)
  /\ (e = OtherValue ->
      displayed e = lit "Unexpected error. Please try again later.").
Proof. split; [intros s ->|intros ->]; reflexivity. Qed.

Lemma orElse_cases (o : option jsstring) (fallback : jsstring) :
  (forall s, o = Some s -> s <> [] -> orElse o fallback = s)
  /\ (o = None \/ o = Some [] -> orElse o fallback = fallback).
Proof.
  unfold orElse. split.
  - intros s -> Hs. destruct s; [contradiction|reflexivity].
  - intros [-> | ->]; reflexivity.
Qed.

(** Discharges the leading conjuncts that are at hand. *)
Ltac at_hand := repeat (split; [first [assumption | reflexivity]|]).

Arguments render : simpl never.

Section Caught.

Variable uriErrorMessage : jsstring.
Variable net : jsstring -> Settled Response.
Variable st : AppState.

Let x := exec net (handleDownload uriErrorMessage (url st)) st.

(** C9, as amended: whatever the input and whatever the network does, the
    promise of the handler is fulfilled (nothing escapes its [catch]) and
    the page is not left loading.  Unless every step went well, the run
    ends in the error state with exactly one message, fixed by the kind of
    error: "Please paste a TikTok link." for a blank input; the text of the
    engine's [URIError] for an input that cannot be encoded; the message
    of the thrown [Error], or "Unexpected error. Please try again later."
    when the thrown value is not an [Error], for a rejected request or a
    rejected body; "Failed to contact the download service. Please try
    again." for a status that is not OK; the body's [msg], or "Unable to
    fetch the video. Make sure the link is public." when [msg] is empty or
    missing, for a non-zero [code] or a missing [play].  The alert shows
    that message whenever it is non-empty, and it is empty only when the
    caught value is an [Error] whose message is the empty string. *)
Theorem errors_are_caught :
  outcome x = Fulfilled tt
  /\ isLoading (final x) = false
  /\ ((status (final x) = success
       /\ exists query r p d,
            trim (url st) <> []
            /\ encodeURIComponent (trim (url st)) = Some query
            /\ net (API_ENDPOINT ++ lit "?url=" ++ query) = Fulfilled r
            /\ ok r = true
            /\ json r = Fulfilled p
            /\ code p = 0%Z
            /\ data p = Some d
            /\ play d <> []
            /\ videoData (final x) = Some d)
      \/ (status (final x) = error
          /\ exists m,
               error_ (final x) = Some m
               /\ panels (render (final x)) =
                    (if truthy m then [ErrorAlert m] else [])
               /\ (m = [] ->
                   In (Performed (ConsoleError (ErrorValue []))) (trace x))
               /\ ((trim (url st) = []
                    /\ m = lit "Please paste a TikTok link.")
                   \/ (trim (url st) <> []
                       /\ encodeURIComponent (trim (url st)) = None
                       /\ m = uriErrorMessage)
                   \/ (exists query e,
                         trim (url st) <> []
                         /\ encodeURIComponent (trim (url st)) = Some query
                         /\ net (API_ENDPOINT ++ lit "?url=" ++ query)
                              = Rejected e
                         /\ (forall s, e = ErrorValue s -> m = s)
                         /\ (e = OtherValue ->
                             m = lit "Unexpected error. Please try again later."))
                   \/ (exists query r,
                         trim (url st) <> []
                         /\ encodeURIComponent (trim (url st)) = Some query
                         /\ net (API_ENDPOINT ++ lit "?url=" ++ query)
                              = Fulfilled r
                         /\ ok r = false
                         /\ m = lit "Failed to contact the download service. Please try again.")
                   \/ (exists query r e,
                         trim (url st) <> []
                         /\ encodeURIComponent (trim (url st)) = Some query
                         /\ net (API_ENDPOINT ++ lit "?url=" ++ query)
                              = Fulfilled r
                         /\ ok r = true
                         /\ json r = Rejected e
                         /\ (forall s, e = ErrorValue s -> m = s)
                         /\ (e = OtherValue ->
                             m = lit "Unexpected error. Please try again later."))
                   \/ (exists query r p,
                         trim (url st) <> []
                         /\ encodeURIComponent (trim (url st)) = Some query
                         /\ net (API_ENDPOINT ++ lit "?url=" ++ query)
                              = Fulfilled r
                         /\ ok r = true
                         /\ json r = Fulfilled p
                         /\ (code p <> 0%Z \/ data p = None
                             \/ exists d, data p = Some d /\ play d = [])
                         /\ m <> []
                         /\ (forall s, msg p = Some s -> s <> [] -> m = s)
                         /\ (msg p = None \/ msg p = Some [] ->
                             m = lit "Unable to fetch the video. Make sure the link is public."))))).
Proof.
  assert (Hfallback :
    forall o, orElse o
      (lit "Unable to fetch the video. Make sure the link is public.") <> []).
  { intros o. apply orElse_nonempty, lit_nonempty. }
  assert (Hnoplay : forall p, hasPlay p = false ->
            data p = None \/ exists d, data p = Some d /\ play d = []).
  { intros p H. unfold hasPlay in H. destruct (data p) as [d|]; [|now left].
    right. exists d. split; [reflexivity|].
    destruct (play d); [reflexivity|discriminate H]. }
  subst x. branches net (url st);
    (split; [reflexivity|]); (split; [reflexivity|]);
    try apply truthy_nonempty in Etrim.
  - (* every step went well *)
    left. split; [reflexivity|].
    unfold hasPlay in Eplay.
    destruct (data payload) as [d|] eqn:Ed; [|discriminate].
    exists query, {| ok := true; json := Fulfilled payload |}, payload, d.
    at_hand. split; [now apply Z.eqb_eq|]. at_hand.
    split; [now apply truthy_nonempty|reflexivity].
  - (* [code] 0 but no [play] *)
    right. split; [reflexivity|].
    exists (orElse (msg payload)
              (lit "Unable to fetch the video. Make sure the link is public.")).
    split; [reflexivity|]. split; [now apply error_panel|].
    split; [intros H; now apply Hfallback in H|].
    do 5 right.
    exists query, {| ok := true; json := Fulfilled payload |}, payload.
    at_hand. split; [right; now apply Hnoplay|].
    split; [apply Hfallback|apply orElse_cases].
  - (* non-zero [code] *)
    right. split; [reflexivity|].
    exists (orElse (msg payload)
              (lit "Unable to fetch the video. Make sure the link is public.")).
    split; [reflexivity|]. split; [now apply error_panel|].
    split; [intros H; now apply Hfallback in H|].
    do 5 right.
    exists query, {| ok := true; json := Fulfilled payload |}, payload.
    at_hand. split; [left; now apply Z.eqb_neq|].
    split; [apply Hfallback|apply orElse_cases].
  - (* the body rejects *)
    right. split; [reflexivity|]. exists (displayed thrown).
    split; [reflexivity|]. split; [now apply error_panel|].
    split; [intros H; apply displayed_empty in H; subst thrown;
            simpl; tauto|].
    do 4 right. left.
    exists query, {| ok := true; json := Rejected thrown |}, thrown.
    at_hand. apply displayed_cases.
  - (* status not OK *)
    right. split; [reflexivity|].
    exists (lit "Failed to contact the download service. Please try again.").
    split; [reflexivity|]. split; [now apply error_panel|].
    split; [discriminate|].
    do 3 right. left.
    exists query, {| ok := false; json := Fulfilled payload |}.
    at_hand. reflexivity.
  - (* status not OK *)
    right. split; [reflexivity|].
    exists (lit "Failed to contact the download service. Please try again.").
    split; [reflexivity|]. split; [now apply error_panel|].
    split; [discriminate|].
    do 3 right. left.
    exists query, {| ok := false; json := Rejected thrown |}.
    at_hand. reflexivity.
  - (* the request rejects *)
    right. split; [reflexivity|]. exists (displayed thrown).
    split; [reflexivity|]. split; [now apply error_panel|].
    split; [intros H; apply displayed_empty in H; subst thrown;
            simpl; tauto|].
    do 2 right. left. exists query, thrown.
    at_hand. apply displayed_cases.
  - (* the input cannot be encoded *)
    right. split; [reflexivity|]. exists uriErrorMessage.
    split; [reflexivity|]. split; [now apply error_panel|].
    split; [intros H; rewrite H; simpl; tauto|].
    right. left. at_hand. reflexivity.
  - (* blank input *)
    right. split; [reflexivity|].
    exists (lit "Please paste a TikTok link.").
    split; [reflexivity|]. split; [now apply error_panel|].
    split; [discriminate|].
    left. split; [|reflexivity].
    destruct (trim (url st)); [reflexivity|discriminate].
Qed.

End Caught.

(** C9 fails as stated: when the request is rejected with an [Error] whose
    message is empty, the error is caught and the page ends in the error
    state, but the message set is the empty string and no alert is
    rendered: nothing is displayed. *)
Lemma caught_error_not_displayed :
  let net := failing (ErrorValue []) in
  let x := exec net (handleDownload engine (url (typed link))) (typed link) in
  In (HttpGet linkRequest) (trace x)
  /\ net linkRequest = Rejected (ErrorValue [])
  /\ outcome x = Fulfilled tt
  /\ status (final x) = error
  /\ error_ (final x) = Some []
  /\ panels (render (final x)) = []
  /\ ~ (exists m, error_ (final x) = Some m /\ m <> []).
Proof.
  split; [vm_compute; do 4 right; left; reflexivity|].
  repeat (split; [reflexivity|]).
  intros [m [H Hm]]. injection H as <-. now apply Hm.
Qed.

(** ** More about the page *)

(** X13: what the page shows in the states it can reach (with or without
    the disabled controls being honoured): nothing when idle, the loading
    note alone while loading, the result card alone, with a non-empty link,
    on success, and on error the alert alone, unless its message is the
    empty string, in which case nothing is shown. *)
Theorem rendered_panels (uriErrorMessage : jsstring) (evs : list Event)
    (u : Ui) :
  run uriErrorMessage evs start = Some u ->
  match status (cells u) with
  | idle => panels (render (cells u)) = []
  | loading => panels (render (cells u)) = [LoadingNote]
  | success =>
      exists d,
        videoData (cells u) = Some d
        /\ play d <> []
        /\ panels (render (cells u)) =
             [ResultCard (cover d) (title d) (title d)
                (lit "@" ++ nickname (author d)) (play d)]
  | error =>
      exists m,
        error_ (cells u) = Some m
        /\ panels (render (cells u)) =
             (if truthy m then [ErrorAlert m] else [])
  end.
Proof.
  intros Hrun.
  assert (Hs : sound false u).
  { apply (sound_run uriErrorMessage false) with (evs := evs) (u := start);
      [discriminate | discriminate | apply sound_start | exact Hrun]. }
  destruct Hs as [[He Hv] _].
  unfold render, errorPanel, successPanel, loadingPanel, active. simpl.
  destruct (status (cells u)) eqn:Es; simpl.
  - reflexivity.
  - reflexivity.
  - destruct (Hv eq_refl) as [d [Hd Hp]]. exists d. rewrite Hd. auto.
  - destruct (He eq_refl) as [m [Hm _]]. exists m. rewrite Hm.
    split; [reflexivity|]. destruct (truthy m); reflexivity.
Qed.

Section PageMore.

Variable uriErrorMessage : jsstring.

(** X14: in the page as rendered, the input and the button are disabled
    exactly while a run of the handler is parked on the network, and there
    is never more than one such run: requests cannot overlap. *)
Theorem disabled_while_in_flight (evs : list Event) (u : Ui) :
  ui_run uriErrorMessage evs start = Some u ->
  (tasks u = []
   /\ inputDisabled (render (cells u)) = false
   /\ buttonDisabled (render (cells u)) = false)
  \/ (exists q, tasks u = [q]
      /\ inputDisabled (render (cells u)) = true
      /\ buttonDisabled (render (cells u)) = true).
Proof.
  intros Hrun.
  assert (Hu : orderly u).
  { apply (orderly_run uriErrorMessage evs start u); [|exact Hrun].
    unfold orderly; simpl. discriminate. }
  unfold orderly in Hu. simpl. unfold isLoading.
  destruct (tasks u) as [|q [|q' rest]].
  - left. destruct (status (cells u)); simpl; auto. contradiction.
  - right. exists q.
    destruct q as [a|e|eff k|req k|r k]; try contradiction;
      destruct Hu as [_ [Hl _]]; rewrite Hl; auto.
  - destruct q; contradiction.
Qed.

Lemma json_settles (u : Ui) (r : Response)
    (k : Settled TikTokResponse -> Proc unit) :
  tasks u = [AwaitJson r k] ->
  follows parsed (k (json r)) (cells u) ->
  exists u',
    ui_handle uriErrorMessage u (JsonSettled 0) = Some u'
    /\ tasks u' = []
    /\ (status (cells u') = success \/ status (cells u') = error).
Proof.
  intros Et Hk.
  pose proof (follows_segment parsed _ _ Hk) as F.
  pose proof (segment_parks (k (json r)) (cells u)) as P.
  unfold ui_handle. simpl. rewrite Et. simpl.
  destruct (segment (k (json r)) (cells u)) as [st1 [a|e|q1]]; simpl in *.
  - eexists. split; [reflexivity|]. split; [reflexivity|]. simpl. tauto.
  - contradiction.
  - destruct (P q1 eq_refl) as [[req [k1 ->]]|[r1 [k1 ->]]];
      simpl in F; destruct F as [F _]; discriminate F.
Qed.

(** X15: in the page as rendered, a run that is in flight always comes to
    an end: whatever the request settles to, one or two settlements later
    nothing is parked any more and the page is in the success or the error
    state, with its controls enabled again. *)
Theorem run_completes (evs : list Event) (u : Ui) (o : Settled Response) :
  ui_run uriErrorMessage evs start = Some u ->
  tasks u <> [] ->
  exists more u',
    (more = [FetchSettled 0 o]
     \/ more = [FetchSettled 0 o; JsonSettled 0]
     \/ more = [JsonSettled 0])
    /\ ui_run uriErrorMessage more u = Some u'
    /\ tasks u' = []
    /\ (status (cells u') = success \/ status (cells u') = error)
    /\ buttonDisabled (render (cells u')) = false.
Proof.
  intros Hrun Hne.
  assert (Hu : orderly u).
  { apply (orderly_run uriErrorMessage evs start u); [|exact Hrun].
    unfold orderly; simpl. discriminate. }
  assert (Hfree : forall st, status st = success \/ status st = error ->
                    buttonDisabled (render st) = false).
  { intros st' [H|H]; simpl; unfold isLoading; now rewrite H. }
  unfold orderly in Hu.
  destruct (tasks u) as [|q [|q' rest]] eqn:Et;
    [congruence| |destruct q; contradiction].
  destruct q as [a|e|eff k|req k|r k]; try contradiction.
  - destruct Hu as [_ [Hl Hk]].
    pose proof (follows_segment fetched _ _ (Hk o)) as F.
    pose proof (segment_parks (k o) (cells u)) as P.
    destruct (segment (k o) (cells u)) as [st1 [a|e|q1]] eqn:Es; simpl in *.
    + exists [FetchSettled 0 o], {| cells := st1; tasks := [] |}.
      split; [now left|]. split.
      * simpl. unfold ui_handle. simpl. rewrite Et. simpl. rewrite Es.
        reflexivity.
      * simpl. destruct F as [F|[F _]]; [|discriminate F].
        split; [reflexivity|]. split; [now right|].
        apply Hfree. now right.
    + contradiction.
    + destruct (P q1 eq_refl) as [[req1 [k1 ->]]|[r1 [k1 ->]]]; simpl in F.
      * destruct F as [F _]. discriminate F.
      * destruct F as [_ [Hl1 Hk1]].
        destruct (json_settles {| cells := st1; tasks := [AwaitJson r1 k1] |}
                    r1 k1 eq_refl Hk1) as [u' [Hstep [Ht Hs]]].
        exists [FetchSettled 0 o; JsonSettled 0], u'.
        split; [right; now left|]. split.
        -- simpl. unfold ui_handle at 1. simpl. rewrite Et. simpl.
           rewrite Es. simpl. now rewrite Hstep.
        -- split; [exact Ht|]. split; [exact Hs|]. now apply Hfree.
  - destruct Hu as [_ [Hl Hk]].
    destruct (json_settles u r k Et Hk) as [u' [Hstep [Ht Hs]]].
    exists [JsonSettled 0], u'.
    split; [right; now right|]. split.
    + simpl. now rewrite Hstep.
    + split; [exact Ht|]. split; [exact Hs|]. now apply Hfree.
Qed.

End PageMore.

(** ** Further scenarios, run *)

Lemma padding_ignored_witness :
  let st := typed link in
  let st' := typed (lit "  " ++ link ++ lit " ") in
  forallb isWhiteSpace (lit "  ") = true
  /\ forallb isWhiteSpace (lit " ") = true
  /\ trace (exec (answering (replying found))
              (handleDownload engine (url st')) st') =
     trace (exec (answering (replying found))
              (handleDownload engine (url st)) st).
Proof.
  split; [reflexivity|]. split; [reflexivity|].
  apply (padding_ignored engine (answering (replying found)) (typed link)
           (typed (lit "  " ++ link ++ lit " ")) (lit "  ") (lit " "));
    reflexivity.
Defined.

Lemma finished_cells_witness :
  let st := typed link in
  let x := exec (answering (replying notFound))
             (handleDownload engine (url st)) st in
  trim (url st) <> []
  /\ ((status (final x) = success
       /\ error_ (final x) = None /\ videoData (final x) <> None)
      \/ (status (final x) = error
          /\ videoData (final x) = None /\ error_ (final x) <> None)).
Proof.
  assert (Hne : trim (url (typed link)) <> []) by discriminate.
  split; [exact Hne|].
  exact (finished_cells engine (answering (replying notFound)) (typed link)
           Hne).
Defined.

Lemma request_query_safe_witness :
  let st := typed (lit "a&b=c #d") in
  let x := exec (failing OtherValue) (handleDownload engine (url st)) st in
  let req := lit "https://www.tikwm.com/api/?url=a%26b%3Dc%20%23d" in
  In (HttpGet req) (trace x)
  /\ exists q,
       req = API_ENDPOINT ++ lit "?url=" ++ q
       /\ forallb querySafe q = true.
Proof.
  assert (Hcu : Forall isCodeUnit (url (typed (lit "a&b=c #d")))).
  { repeat constructor. }
  assert (Hin : In (HttpGet (lit "https://www.tikwm.com/api/?url=a%26b%3Dc%20%23d"))
                  (trace (exec (failing OtherValue)
                            (handleDownload engine
                               (url (typed (lit "a&b=c #d"))))
                            (typed (lit "a&b=c #d"))))).
  { vm_compute. do 4 right. left. reflexivity. }
  split; [exact Hin|].
  exact (request_query_safe engine (failing OtherValue)
           (typed (lit "a&b=c #d")) _ Hcu Hin).
Defined.

Lemma request_carries_trimmed_input_witness :
  let st := typed (lit " a ") in
  let x := exec (failing OtherValue) (handleDownload engine (url st)) st in
  let req := lit "https://www.tikwm.com/api/?url=a" in
  In (HttpGet req) (trace x)
  /\ exists pre t post q,
       url st = pre ++ t ++ post
       /\ forallb isWhiteSpace pre = true
       /\ forallb isWhiteSpace post = true
       /\ t <> []
       /\ (forall c rest, t = c :: rest -> isWhiteSpace c = false)
       /\ (forall front c, t = front ++ [c] -> isWhiteSpace c = false)
       /\ encodeURIComponent t = Some q
       /\ req = API_ENDPOINT ++ lit "?url=" ++ q.
Proof.
  assert (Hin : In (HttpGet (lit "https://www.tikwm.com/api/?url=a"))
                  (trace (exec (failing OtherValue)
                            (handleDownload engine (url (typed (lit " a "))))
                            (typed (lit " a "))))).
  { vm_compute. do 4 right. left. reflexivity. }
  split; [exact Hin|].
  exact (request_carries_trimmed_input engine (failing OtherValue)
           (typed (lit " a ")) _ Hin).
Defined.

Lemma unpaired_surrogate_rejected_witness :
  let st := typed [0x61; 0xD83D] in
  let x := exec (answering (replying found))
             (handleDownload engine (url st)) st in
  trim (url st) <> []
  /\ isWellFormed (trim (url st)) = false
  /\ status (final x) = error
  /\ error_ (final x) = Some (lit "URI malformed")
  /\ requests (trace x) = [].
Proof.
  assert (Hne : trim (url (typed [0x61; 0xD83D])) <> []) by discriminate.
  assert (Hwf : isWellFormed (trim (url (typed [0x61; 0xD83D]))) = false)
    by reflexivity.
  destruct (unpaired_surrogate_rejected engine (answering (replying found))
              (typed [0x61; 0xD83D]) Hne Hwf) as [Hs [He [_ [Hr _]]]].
  repeat split; assumption.
Defined.

Lemma body_rejected_witness :
  let x := exec (answering garbled)
             (handleDownload engine (url (typed link))) (typed link) in
  In (HttpGet linkRequest) (trace x)
  /\ status (final x) = error
  /\ error_ (final x) = Some (lit "Unexpected end of JSON input")
  /\ videoData (final x) = None.
Proof.
  assert (Hin : In (HttpGet linkRequest)
                  (trace (exec (answering garbled)
                            (handleDownload engine (url (typed link)))
                            (typed link)))).
  { vm_compute. do 4 right. left. reflexivity. }
  split; [exact Hin|].
  exact (body_rejected engine (answering garbled) (typed link) linkRequest
           garbled (ErrorValue (lit "Unexpected end of JSON input"))
           Hin eq_refl eq_refl eq_refl).
Defined.

Lemma missing_play_is_an_error_witness :
  let x := exec (answering (replying hollow))
             (handleDownload engine (url (typed link))) (typed link) in
  In (HttpGet linkRequest) (trace x)
  /\ code hollow = 0%Z
  /\ status (final x) = error
  /\ videoData (final x) = None
  /\ error_ (final x) =
       Some (lit "Unable to fetch the video. Make sure the link is public.").
Proof.
  assert (Hin : In (HttpGet linkRequest)
                  (trace (exec (answering (replying hollow))
                            (handleDownload engine (url (typed link)))
                            (typed link)))).
  { vm_compute. do 4 right. left. reflexivity. }
  split; [exact Hin|]. split; [reflexivity|].
  exact (missing_play_is_an_error engine (answering (replying hollow))
           (typed link) linkRequest (replying hollow) hollow
           Hin eq_refl eq_refl eq_refl (or_introl eq_refl)).
Defined.

Lemma prior_cells_overwritten_witness :
  let st := typed link in
  let st' :=
    {| url := link; status := error; error_ := Some (lit "old");
       videoData := Some video |} in
  trim (url st) <> []
  /\ final (exec (answering (replying notFound))
              (handleDownload engine (url st')) st') =
     final (exec (answering (replying notFound))
              (handleDownload engine (url st)) st).
Proof.
  assert (Hne : trim (url (typed link)) <> []) by discriminate.
  split; [exact Hne|].
  exact (prior_cells_overwritten engine (answering (replying notFound))
           (typed link)
           {| url := link; status := error; error_ := Some (lit "old");
              videoData := Some video |} eq_refl Hne).
Defined.

Lemma rendered_panels_witness :
  exists u,
    run engine
      [Change link; Submit; FetchSettled 0 (Fulfilled (replying found));
       JsonSettled 0] start = Some u
    /\ panels (render (cells u)) =
         [ResultCard (lit "https://cdn/c.jpg") (lit "T") (lit "T")
            (lit "@user") (lit "https://cdn/x.mp4")].
Proof.
  eexists.
  assert (Hrun : run engine
      [Change link; Submit; FetchSettled 0 (Fulfilled (replying found));
       JsonSettled 0] start
      = Some {| cells := {| url := link; status := success; error_ := None;
                            videoData := Some video |};
                tasks := [] |}) by reflexivity.
  split; [exact Hrun|].
  destruct (rendered_panels engine _ _ Hrun) as [d [Hd [_ Hp]]].
  simpl in Hd. injection Hd as <-. exact Hp.
Defined.

Lemma disabled_while_in_flight_witness :
  ui_run engine [Change link; Submit] start = Some submitted
  /\ exists q, tasks submitted = [q]
       /\ inputDisabled (render (cells submitted)) = true
       /\ buttonDisabled (render (cells submitted)) = true.
Proof.
  assert (Hrun : ui_run engine [Change link; Submit] start = Some submitted)
    by reflexivity.
  split; [exact Hrun|].
  destruct (disabled_while_in_flight engine [Change link; Submit] submitted
              Hrun) as [[Ht _]|H].
  - discriminate Ht.
  - exact H.
Defined.

Lemma run_completes_witness :
  ui_run engine [Change link; Submit] start = Some submitted
  /\ tasks submitted <> []
  /\ exists more u',
       ui_run engine more submitted = Some u'
       /\ tasks u' = []
       /\ (status (cells u') = success \/ status (cells u') = error).
Proof.
  assert (Hrun : ui_run engine [Change link; Submit] start = Some submitted)
    by reflexivity.
  assert (Hne : tasks submitted <> []) by discriminate.
  split; [exact Hrun|]. split; [exact Hne|].
  destruct (run_completes engine [Change link; Submit] submitted
              (Fulfilled (replying found)) Hrun Hne)
    as [more [u' [_ [Hmore [Ht [Hs _]]]]]].
  exists more, u'. split; [exact Hmore|]. split; [exact Ht|exact Hs].
Defined.
